(** * Avatar core of kaiju-killers: movement, normalisation, clips, guard

    A shallow embedding of the avatar pipeline of the repository:

    - [Movement]   : [src/hooks/useKeyboardMovement.ts]
    - [Normalizer] : [src/utils/loaders/gltfInspector.ts]
    - [Clips], [Animation], [Guard] : [ModernAvatarSystem]
      (the file kept as [unnamed/part_009])

    JavaScript numbers are read as real numbers: [+], [-], [*], [/] and the
    comparisons are those of [R], [Math.hypot] is the Euclidean norm and
    [Math.atan2] the two-argument arctangent.  Rounding, signed zeros, NaN
    and the infinities of IEEE 754 are outside this reading.  Console
    output is not modelled, except for the assignment to
    [window.__setupModelCallCount] that one log argument makes; every
    other effect (the refs of a hook, the [window] registry, the calls
    made on an animation mixer) is explicit state. *)

From Stdlib Require Import Reals Lra Psatz.
From stdpp Require Import gmap strings.
From Stdlib Require Import String Ascii List Bool.
Import ListNotations.

(** ** JavaScript helpers shared by the components *)

Module JS.

(** [Array.prototype.some]. *)
Definition some {A : Type} (f : A -> bool) (l : list A) : bool := existsb f l.

(** [Array.prototype.find]. *)
Definition find {A : Type} (f : A -> bool) (l : list A) : option A := List.find f l.

(** Truthiness of a string: every string but the empty one. *)
Definition truthy (s : string) : bool := negb (String.eqb s "").

(** [a < b] on numbers. *)
Definition ltb (a b : R) : bool := if Rlt_dec a b then true else false.

(** [s.endsWith(suffix)]. *)
Definition endsWith (s suffix : string) : bool :=
  let n := String.length s in
  let m := String.length suffix in
  (m <=? n)%nat && String.eqb (String.substring (n - m) m s) suffix.

End JS.

(** ** Movement Integrator ([useKeyboardMovement]) *)

Module Movement.

Local Open Scope R_scope.

Definition Vector3Tuple : Type := R * R * R.

Inductive MovementDirection := forward | backward | left | right.

(** [MOVEMENT_KEYS], in the order [Object.entries] lists it. *)
Definition MOVEMENT_KEYS : list (MovementDirection * list string) :=
  [ (forward,  ["KeyW"; "ArrowUp"]%string);
    (backward, ["KeyS"; "ArrowDown"]%string);
    (left,     ["KeyA"; "ArrowLeft"]%string);
    (right,    ["KeyD"; "ArrowRight"]%string) ].

Definition RUN_KEYS : list string := ["ShiftLeft"; "ShiftRight"]%string.

Record Velocity := mkVelocity { x : R; z : R; speed : R }.

Record MovementState := mkMovementState {
  position   : Vector3Tuple;
  rotation   : Vector3Tuple;
  isMoving   : bool;
  isRunning  : bool;
  velocity   : Velocity;
  activeKeys : list string
}.

(** The refs of one hook instance.  [keysPressed] is a JavaScript [Set]:
    no duplicates, iterated in insertion order. *)
Record Hook := mkHook {
  keysPressed     : list string;
  currentPosition : Vector3Tuple;
  currentRotation : Vector3Tuple
}.

(** [Set.prototype.has]. *)
Definition has (keys : list string) (k : string) : bool :=
  existsb (String.eqb k) keys.

(** [Set.prototype.add] and [Set.prototype.delete]. *)
Definition add (keys : list string) (k : string) : list string :=
  if has keys k then keys else keys ++ [k].

Definition delete (keys : list string) (k : string) : list string :=
  filter (fun k' => negb (String.eqb k k')) keys.

(** [Math.hypot] on two arguments. *)
Definition hypot (a b : R) : R := sqrt (a * a + b * b).

(** [Math.atan2 y x] on real numbers.  Zero has no sign here: where the
    first argument is zero and the second negative the value is [PI],
    which is what JavaScript returns for [+0] and the opposite of what it
    returns for [-0]. *)
Definition atan2 (y x : R) : R :=
  if Rlt_dec 0 x then atan (y / x)
  else if Rlt_dec x 0 then
    (if Rlt_dec y 0 then atan (y / x) - PI else atan (y / x) + PI)
  else if Rlt_dec 0 y then PI / 2
  else if Rlt_dec y 0 then - (PI / 2)
  else 0.

(** The locals of [updateMovement] that the loop over the directions
    assigns. *)
Record Locals := mkLocals {
  moveX   : R;
  moveZ   : R;
  newRotY : R;
  moving  : bool
}.

Section Update.

(** The [speed] option of the hook (default [0.2]). *)
Variable baseSpeed : R.

Definition runMultiplier (runPressed : bool) : R :=
  if runPressed then 1.8 else 1.0.

(** [frameSpeed = speed * runMultiplier * (deltaTime * 60)]. *)
Definition frameSpeed (runPressed : bool) (deltaTime : R) : R :=
  baseSpeed * runMultiplier runPressed * (deltaTime * 60).

(** One iteration of [for (const [direction, keys] of directions)]. *)
Definition iteration (pressed : list string) (runPressed : bool) (deltaTime : R)
    (l : Locals) (entry : MovementDirection * list string) : Locals :=
  let '(direction, keys) := entry in
  let isPressed := JS.some (has pressed) keys in
  if isPressed then
    let frameSpeed := frameSpeed runPressed deltaTime in
    match direction with
    | forward  => mkLocals (moveX l) (moveZ l - frameSpeed) 0 true
    | backward => mkLocals (moveX l) (moveZ l + frameSpeed) PI true
    | left     => mkLocals (moveX l - frameSpeed) (moveZ l) (PI / 2) true
    | right    => mkLocals (moveX l + frameSpeed) (moveZ l) (- PI / 2) true
    end
  else l.

(** The whole loop, from [moveX = 0], [moveZ = 0],
    [newRotY = currentRotation.current[1]] and [isMoving = false]. *)
Definition directionsLoop (pressed : list string) (runPressed : bool)
    (deltaTime rotY : R) : Locals :=
  fold_left (iteration pressed runPressed deltaTime) MOVEMENT_KEYS
    (mkLocals 0 0 rotY false).

(** The result of one call: the refs afterwards, the state handed to
    [onStateChange] (when that call is made) and the returned state. *)
Record Outcome := mkOutcome {
  hook'       : Hook;
  notified    : option MovementState;
  returnState : MovementState
}.

(** The default of the parameter [deltaTime = 0.016]; [None] is a call
    without the argument. *)
Definition deltaTimeOf (arg : option R) : R :=
  match arg with Some d => d | None => 0.016 end.

Definition updateMovement (h : Hook) (deltaTimeArg : option R) : Outcome :=
  let deltaTime := deltaTimeOf deltaTimeArg in
  let runPressed := JS.some (has (keysPressed h)) RUN_KEYS in
  let activeKeys := keysPressed h in
  let l := directionsLoop (keysPressed h) runPressed deltaTime
             (snd (fst (currentRotation h))) in
  let h1 :=
    if moving l then
      let '(px, py, pz) := currentPosition h in
      let len := hypot (moveX l) (moveZ l) in
      let rotY := if Rlt_dec 1e-6 len then atan2 (- moveX l) (- moveZ l) else newRotY l in
      mkHook (keysPressed h) (px + moveX l, py, pz + moveZ l) (0, rotY, 0)
    else h in
  let st := mkMovementState (currentPosition h1) (currentRotation h1)
              (moving l) runPressed
              (mkVelocity (moveX l) (moveZ l) (hypot (moveX l) (moveZ l)))
              activeKeys in
  let note :=
    if moving l || (List.length (keysPressed h) =? 0)%nat then Some st else None in
  mkOutcome h1 note st.

End Update.

(** [allKeys] of the two keyboard handlers. *)
Definition allKeys : list string :=
  concat (map snd MOVEMENT_KEYS) ++ RUN_KEYS.

Definition handleKeyDown (h : Hook) (code : string) : Hook :=
  if existsb (String.eqb code) allKeys then
    if negb (has (keysPressed h) code)
    then mkHook (add (keysPressed h) code) (currentPosition h) (currentRotation h)
    else h
  else h.

Definition handleKeyUp (h : Hook) (code : string) : Hook :=
  if existsb (String.eqb code) allKeys then
    if has (keysPressed h) code
    then mkHook (delete (keysPressed h) code) (currentPosition h) (currentRotation h)
    else h
  else h.

(** Whether one of the keys of a direction is held. *)
Definition pressed (keys : list string) (d : MovementDirection) : bool :=
  match d with
  | forward  => JS.some (has keys) ["KeyW"; "ArrowUp"]%string
  | backward => JS.some (has keys) ["KeyS"; "ArrowDown"]%string
  | left     => JS.some (has keys) ["KeyA"; "ArrowLeft"]%string
  | right    => JS.some (has keys) ["KeyD"; "ArrowRight"]%string
  end.

Definition runPressed (keys : list string) : bool := JS.some (has keys) RUN_KEYS.

(** The directions held, in the order of [MOVEMENT_KEYS]. *)
Definition heldDirections (keys : list string) : list MovementDirection :=
  filter (pressed keys) [forward; backward; left; right].

(** The two axes of the move vector, each with its opposing pair. *)
Inductive Axis := AxisX | AxisZ.

Definition opposingHeld (keys : list string) (a : Axis) : bool :=
  match a with
  | AxisX => pressed keys left && pressed keys right
  | AxisZ => pressed keys forward && pressed keys backward
  end.

Definition velocityOn (a : Axis) (v : Velocity) : R :=
  match a with AxisX => x v | AxisZ => z v end.

Definition coordinate (a : Axis) (p : Vector3Tuple) : R :=
  match a with AxisX => fst (fst p) | AxisZ => snd p end.

(** The signed units the held directions add up to on each axis: left
    and forward count [-1], right and backward [+1]. *)
Definition unitX (keys : list string) : R :=
  (if pressed keys left then -1 else 0) + (if pressed keys right then 1 else 0).

Definition unitZ (keys : list string) : R :=
  (if pressed keys forward then -1 else 0) + (if pressed keys backward then 1 else 0).

(** [currentState], the snapshot the hook returns beside
    [updateMovement]. *)
Definition currentState (h : Hook) : MovementState :=
  mkMovementState (currentPosition h) (currentRotation h)
    (0 <? List.length (keysPressed h))%nat
    (JS.some (has (keysPressed h)) RUN_KEYS)
    (mkVelocity 0 0 0)
    (keysPressed h).

(** The keyboard events the two listeners receive. *)
Inductive KeyEvent := KeyDown (code : string) | KeyUp (code : string).

Definition handleKey (h : Hook) (e : KeyEvent) : Hook :=
  match e with
  | KeyDown code => handleKeyDown h code
  | KeyUp code => handleKeyUp h code
  end.

Definition handleKeys (h : Hook) (events : list KeyEvent) : Hook :=
  fold_left handleKey events h.

End Movement.

(** ** The parts of three.js the avatar code calls *)

Module THREE.

Local Open Scope R_scope.

Record Vector3 := mkVector3 { x : R; y : R; z : R }.

(** [Vector3.setScalar] and [Vector3.multiplyScalar]. *)
Definition setScalar (s : R) : Vector3 := mkVector3 s s s.

Definition multiplyScalar (v : Vector3) (s : R) : Vector3 :=
  mkVector3 (x v * s) (y v * s) (z v * s).

Record Box3 := mkBox3 { min : Vector3; max : Vector3 }.

(** [Box3.isEmpty], [Box3.getSize] and [Box3.getCenter]. *)
Definition isEmpty (b : Box3) : bool :=
  JS.ltb (x (max b)) (x (min b)) || JS.ltb (y (max b)) (y (min b))
  || JS.ltb (z (max b)) (z (min b)).

Definition getSize (b : Box3) : Vector3 :=
  if isEmpty b then mkVector3 0 0 0
  else mkVector3 (x (max b) - x (min b)) (y (max b) - y (min b))
                 (z (max b) - z (min b)).

Definition getCenter (b : Box3) : Vector3 :=
  if isEmpty b then mkVector3 0 0 0
  else mkVector3 ((x (min b) + x (max b)) * 0.5) ((y (min b) + y (max b)) * 0.5)
                 ((z (min b) + z (max b)) * 0.5).

(** A scene node: its name, local position, scale and children.
    [new THREE.Group()] starts unnamed, at the origin, with scale 1. *)
Unset Elimination Schemes.
Inductive Object3D :=
  mkObject3D (name : string) (position scale : Vector3) (children : list Object3D).
Set Elimination Schemes.

Definition name (o : Object3D) : string := let 'mkObject3D n _ _ _ := o in n.
Definition position (o : Object3D) : Vector3 := let 'mkObject3D _ p _ _ := o in p.
Definition scale (o : Object3D) : Vector3 := let 'mkObject3D _ _ s _ := o in s.
Definition children (o : Object3D) : list Object3D := let 'mkObject3D _ _ _ c := o in c.

Definition newGroup : Object3D :=
  mkObject3D "" (mkVector3 0 0 0) (mkVector3 1 1 1) [].

Definition setName (o : Object3D) (n : string) : Object3D :=
  mkObject3D n (position o) (scale o) (children o).

Definition setPosition (o : Object3D) (p : Vector3) : Object3D :=
  mkObject3D (name o) p (scale o) (children o).

Definition setScale (o : Object3D) (s : Vector3) : Object3D :=
  mkObject3D (name o) (position o) s (children o).

(** [parent.add(child)] for a child that has no parent yet. *)
Definition add (parent child : Object3D) : Object3D :=
  mkObject3D (name parent) (position parent) (scale parent)
             (children parent ++ [child]).

(** A keyframe track: its name, [nodePath.property], and its keyframes
    (times and values). *)
Record KeyframeTrack := mkKeyframeTrack {
  trackName : string;
  times     : list R;
  values    : list R
}.

Record AnimationClip := mkAnimationClip {
  clipName : string;
  duration : R;
  tracks   : list KeyframeTrack
}.

(** [AnimationClip.resetDuration]: the largest last keyframe time of the
    tracks, and 0 without tracks. *)
Definition resetDuration (ts : list KeyframeTrack) : R :=
  fold_left (fun d t => Rmax d (List.last (times t) 0)) ts 0.

(** [new THREE.AnimationClip(name, duration, tracks)]: a negative
    duration asks the constructor to work the duration out from the
    tracks. *)
Definition newAnimationClip (n : string) (d : R) (ts : list KeyframeTrack)
    : AnimationClip :=
  mkAnimationClip n (if JS.ltb d 0 then resetDuration ts else d) ts.

End THREE.

(** ** Model Normalizer ([createNormalizedContainer]) *)

Module Normalizer.

Import THREE.
Local Open Scope R_scope.

Record NormalizeOptions := mkNormalizeOptions {
  targetHeight   : option R;
  centerToGround : option bool
}.

(** Truthiness of a number: not zero. *)
Definition truthyNumber (v : R) : bool :=
  if Req_dec_T v 0 then false else true.

Section Normalize.

(** [new THREE.Box3().setFromObject(model)]: the geometry of a model is
    not part of the embedding, its bounding box is given. *)
Variable setFromObject : Object3D -> Box3.

Definition createNormalizedContainer (model : Object3D) (options : NormalizeOptions)
    : Object3D :=
  let targetHeight := targetHeight options in
  let centerToGround :=
    match centerToGround options with Some b => b | None => true end in
  let container := setName newGroup "AvatarContainer" in
  let pivot := setName newGroup "AvatarPivot" in
  let bbox := setFromObject model in
  let size := getSize bbox in
  let center := getCenter bbox in
  let pivot :=
    if centerToGround
    then setPosition pivot (mkVector3 (- x center) (- y (min bbox)) (- z center))
    else pivot in
  let container :=
    match targetHeight with
    | Some targetHeight =>
        if truthyNumber targetHeight && JS.ltb 0 (y size)
        then
          let scaleFactor := targetHeight / y size in
          setScale container (setScalar scaleFactor)
        else container
    | None => container
    end in
  let pivot := add pivot model in
  add container pivot.

(** [container.getObjectByName('AvatarPivot')], for a container made
    above: the pivot is its only child. *)
Definition pivotOf (container : Object3D) : option Object3D :=
  JS.find (fun o => String.eqb (name o) "AvatarPivot") (children container).

End Normalize.

End Normalizer.

(** ** Root-Motion Stripper ([getRootMotionStrippedClips]) *)

Module Clips.

Import THREE.

(** [track.name.endsWith('.position')]. *)
Definition isPosition (track : KeyframeTrack) : bool :=
  JS.endsWith (trackName track) ".position".

(** The callback of [avatar.animations.map]: what one clip becomes. *)
Definition stripClip (clip : AnimationClip) : AnimationClip :=
  let filteredTracks := filter (fun track => negb (isPosition track)) (tracks clip) in
  newAnimationClip (clipName clip) (duration clip) filteredTracks.

(** [animations] is [avatar.animations], [None] when the field is
    absent. *)
Definition getRootMotionStrippedClips (animations : option (list AnimationClip))
    : list AnimationClip :=
  match animations with
  | None => []
  | Some [] => []
  | Some clips => map stripClip clips
  end.

End Clips.

(** ** Animation Selector (the mixer part of [ModernAvatarSystem]) *)

Module Animation.

Import THREE.
Local Open Scope R_scope.

(** The regular expressions of the selector: every one of them is a
    case-insensitive search for one of a few words, except [/$^/], which
    only the empty string matches. *)
Inductive RegExp :=
| Words (alternatives : list string)
| EmptyOnly.

Definition lowerAscii (c : ascii) : ascii :=
  let n := nat_of_ascii c in
  if ((65 <=? n) && (n <=? 90))%nat then ascii_of_nat (n + 32) else c.

Fixpoint lower (s : string) : string :=
  match s with
  | EmptyString => EmptyString
  | String c s' => String (lowerAscii c) (lower s')
  end.

(** [s.includes(word)]. *)
Fixpoint includes (s word : string) : bool :=
  String.prefix word s
  || match s with
     | EmptyString => false
     | String _ s' => includes s' word
     end.

(** [p.test(s)]; the words of a pattern are written in lower case. *)
Definition test (p : RegExp) (s : string) : bool :=
  match p with
  | Words alternatives => JS.some (includes (lower s)) alternatives
  | EmptyOnly => String.eqb s ""
  end.

Inductive LoopMode := LoopOnce | LoopRepeat | LoopPingPong.

Inductive Repetitions := Times (n : nat) | Infinity.

(** An action is the one the mixer keeps for a clip. *)
Definition AnimationAction : Type := AnimationClip.

(** The calls a mixer and its actions receive. *)
Inductive MixerCall :=
| update (delta : R)
| clipAction (clip : AnimationClip)
| reset (action : AnimationAction)
| fadeIn (action : AnimationAction) (seconds : R)
| fadeOut (action : AnimationAction) (seconds : R)
| setLoop (action : AnimationAction) (mode : LoopMode) (repetitions : Repetitions)
| play (action : AnimationAction)
| stop (action : AnimationAction)
| stopAllAction.

(** A mixer is known by the calls made on it and on its actions, oldest
    first. *)
Definition AnimationMixer : Type := list MixerCall.

(** The refs of the component and of [useModernAnimationControls] that
    the animation code reads and writes.  [playStrippedRef] holds the
    closure [playStrippedByName], known by the clips it closes over. *)
Record Refs := mkRefs {
  mixerRef           : option AnimationMixer;
  currentActionRef   : option AnimationAction;
  strippedClipsRef   : option (list AnimationClip);
  currentClipNameRef : option string;
  playStrippedRef    : option (list AnimationClip)
}.

Definition initialRefs : Refs := mkRefs None None None None None.

(** Calls made on the mixer behind [mixerRef]. *)
Definition call (calls : list MixerCall) (r : Refs) : Refs :=
  mkRefs (option_map (fun m => m ++ calls) (mixerRef r)) (currentActionRef r)
         (strippedClipsRef r) (currentClipNameRef r) (playStrippedRef r).

Definition setCurrentClipName (n : string) (r : Refs) : Refs :=
  mkRefs (mixerRef r) (currentActionRef r) (strippedClipsRef r) (Some n)
         (playStrippedRef r).

Definition setCurrentAction (a : AnimationAction) (r : Refs) : Refs :=
  mkRefs (mixerRef r) (Some a) (strippedClipsRef r) (currentClipNameRef r)
         (playStrippedRef r).

(** The calls both play helpers make to start a clip:
    [mixer.clipAction(clip)], then [reset()], [fadeIn(0.2)],
    [setLoop(THREE.LoopRepeat, Infinity)] and [play()] on the action. *)
Definition startCalls (clip : AnimationClip) : list MixerCall :=
  let action := clip in
  [clipAction clip; reset action; fadeIn action 0.2;
   setLoop action LoopRepeat Infinity; play action].

Definition hasName (n : string) (c : AnimationClip) : bool :=
  String.eqb (clipName c) n.

(** [playStrippedByName], the helper [setupModel] builds over its
    [strippedClips]. *)
Definition playStrippedByName (strippedClips : list AnimationClip) (r : Refs)
    (name : string) : Refs :=
  let clip :=
    match JS.find (hasName name) strippedClips with
    | Some c => Some c
    | None => List.head strippedClips
    end in
  match clip with
  | None => r
  | Some clip => setCurrentClipName (clipName clip) (call (startCalls clip) r)
  end.

(** [playAnimation] of [useModernAnimationControls]. *)
Definition playAnimation (animations : option (list AnimationClip)) (r : Refs)
    (animationName : string) : Refs * bool :=
  match mixerRef r, animations with
  | Some _, Some animations =>
      match JS.find (hasName animationName) animations with
      | None => (r, false)
      | Some animation =>
          let r :=
            match currentActionRef r with
            | Some current => call [fadeOut current 0.2] r
            | None => r
            end in
          let newAction := animation in
          (setCurrentAction newAction (call (startCalls animation) r), true)
      end
  | _, _ => (r, false)
  end.

(** [findBy] of the frame callback: the name of the first clip that the
    first successful pattern matches. *)
Fixpoint findBy (clips : list AnimationClip) (patterns : list RegExp) : option string :=
  match patterns with
  | [] => None
  | p :: patterns' =>
      match JS.find (fun c => test p (clipName c)) clips with
      | Some hit => Some (clipName hit)
      | None => findBy clips patterns'
      end
  end.

Definition truthyName (n : option string) : bool :=
  match n with Some s => JS.truthy s | None => false end.

(** The clip name the frame callback wants for a movement state. *)
Definition want (clips : list AnimationClip) (isMoving isRunning : bool) : option string :=
  let idle :=
    let idle := findBy clips [Words ["smok"]; Words ["idle"]; Words ["stand"];
                              Words ["tpose"]]%string in
    if truthyName idle then idle
    else option_map clipName (List.head clips) in
  if isMoving then
    let moving := findBy clips [(if isRunning then Words ["run"%string] else EmptyOnly);
                                Words ["walk"]; Words ["move"]; Words ["locomotion"];
                                Words ["forward"]]%string in
    if truthyName moving then moving
    else
      match JS.find (fun c => negb (test (Words ["idle"; "stand"; "tpose"]%string)
                                        (clipName c))) clips with
      | Some nonIdle => Some (clipName nonIdle)
      | None => idle
      end
  else idle.

Definition sameName (a b : option string) : bool :=
  match a, b with
  | Some x, Some y => String.eqb x y
  | None, None => true
  | _, _ => false
  end.

(** The animation step of the frame callback: advance the mixer, then
    switch clips when the wanted name is not the current one. *)
Definition frameAnimation (r : Refs) (isMoving isRunning : bool) (delta : R) : Refs :=
  match mixerRef r with
  | None => r
  | Some _ =>
      let r := call [update delta] r in
      match strippedClipsRef r, playStrippedRef r with
      | Some clips, Some playByName =>
          let want := want clips isMoving isRunning in
          if truthyName want && negb (sameName want (currentClipNameRef r))
          then
            match want with
            | Some w => playStrippedByName playByName (setCurrentClipName w r) w
            | None => r
            end
          else r
      | _, _ => r
      end
  end.

Definition isFadeOut (c : MixerCall) : bool :=
  match c with fadeOut _ _ => true | _ => false end.

End Animation.

(** ** Instance Guard and model setup ([ModernAvatarSystem]) *)

Module AvatarSystem.

Import THREE.
Local Open Scope R_scope.
Local Open Scope string_scope.

(** [Avatar] of [src/types/index.ts]; a missing model is [None]. *)
Record Avatar := mkAvatar {
  id         : string;
  name       : string;
  model      : option Object3D;
  animations : option (list AnimationClip)
}.

(** One mounted component: its avatar and the two parts of its
    [componentId] that are drawn when it is created, [Date.now()] and the
    random base-36 suffix. *)
Record Instance := mkInstance {
  avatar    : Avatar;
  createdAt : string;
  suffix    : string
}.

Definition componentId (i : Instance) : string :=
  "avatar_" ++ name (avatar i) ++ "_" ++ createdAt i ++ "_" ++ suffix i.

Definition globalKey (a : Avatar) : string := "instance_" ++ name a.

(** The string-valued properties of [window] the component uses: the
    instance slots and [__currentSetup].  The one numeric property,
    [__setupModelCallCount], is kept beside the map by [setupModelCall]. *)
Definition truthyAt (window : gmap string string) (key : string) : bool :=
  match window !! key with
  | Some v => JS.truthy v
  | None => false
  end.

Definition isAt (window : gmap string string) (key value : string) : bool :=
  match window !! key with
  | Some v => String.eqb v value
  | None => false
  end.

(** The guard at the top of the component function: [false] is the
    [return null] of a blocked duplicate. *)
Definition acquire (window : gmap string string) (i : Instance)
    : gmap string string * bool :=
  let globalKey := globalKey (avatar i) in
  if truthyAt window globalKey && negb (isAt window globalKey (componentId i))
  then (window, false)
  else
    (if negb (truthyAt window globalKey)
     then <[globalKey := componentId i]> window
     else window,
     true).

(** The cleanup of the mount effect. *)
Definition release (window : gmap string string) (i : Instance)
    : gmap string string :=
  let key := "instance_" ++ name (avatar i) in
  if isAt window key (componentId i) then base.delete key window else window.

(** What an instance that passed the guard holds: the children of its
    [<group>] ([None] while the ref is not attached), its container and
    pivot refs, its animation refs and the clip name of the autoplay
    timer that [setupModel] started. *)
Record Owner := mkOwner {
  instance     : Instance;
  groupRef     : option (list Object3D);
  containerRef : option Object3D;
  pivotRef     : option Object3D;
  refs         : Animation.Refs;
  autoplay     : option string
}.

Definition newOwner (i : Instance) (group : option (list Object3D)) : Owner :=
  mkOwner i group None None Animation.initialRefs None.

Section Setup.

Variable setFromObject : Object3D -> Box3.

(** The clip [setupModel] plays on load: Smoking, then Idle, then
    Standing, then the first one. *)
Definition preferredOnLoad (strippedClips : list AnimationClip) : option AnimationClip :=
  match JS.find (fun c => Animation.test (Animation.Words ["smok"]) (clipName c))
                strippedClips with
  | Some c => Some c
  | None =>
    match JS.find (fun c => Animation.test (Animation.Words ["idle"]) (clipName c))
                  strippedClips with
    | Some c => Some c
    | None =>
      match JS.find (fun c => Animation.test (Animation.Words ["standing"]) (clipName c))
                    strippedClips with
      | Some c => Some c
      | None => List.head strippedClips
      end
    end
  end.

(** [setupModel]: the window and the refs afterwards, and the returned
    container.  The call counter that its log line increments is not a
    string and is threaded by [setupModelCall] below. *)
Definition setupModel (window : gmap string string) (o : Owner) (scale : R)
    : gmap string string * Owner * option Object3D :=
  let a := avatar (instance o) in
  let setupKey := "setup_" ++ name a in
  if isAt window "__currentSetup" setupKey then (window, o, containerRef o)
  else
    match groupRef o, model a with
    | None, _ => (window, o, None)
    | Some _, None => (window, o, None)
    | Some _, Some model =>
        let window := <["__currentSetup" := setupKey]> window in
        let group : list Object3D := [] in
        let clonedModel := model in
        let container :=
          Normalizer.createNormalizedContainer setFromObject clonedModel
            (Normalizer.mkNormalizeOptions (Some 1.8) (Some true)) in
        let container := setName container "AvatarContainer" in
        let pivot := Normalizer.pivotOf container in
        let container := setScale container (multiplyScalar (THREE.scale container) scale) in
        let group := (group ++ [container])%list in
        let '(refs, autoplay) :=
          match animations a with
          | Some (_ :: _) =>
              let mixer : Animation.AnimationMixer := [] in
              let strippedClips := Clips.getRootMotionStrippedClips (animations a) in
              (Animation.mkRefs (Some mixer) (Animation.currentActionRef (refs o))
                 (Some strippedClips) (Animation.currentClipNameRef (refs o))
                 (Some strippedClips),
               option_map clipName (preferredOnLoad strippedClips))
          | _ => (refs o, autoplay o)
          end in
        let window := base.delete "__currentSetup" window in
        (window,
         mkOwner (instance o) (Some group) (Some container) pivot refs autoplay,
         Some container)
    end.

(** A call of [setupModel] with [window.__setupModelCallCount] beside
    the window: past the [__currentSetup] test, and before the group ref
    and the model are looked at, the first log line evaluates
    [window.__setupModelCallCount = (window.__setupModelCallCount || 0) + 1].
    [None] is a counter not yet set. *)
Definition setupModelCall (callCount : option nat) (window : gmap string string)
    (o : Owner) (scale : R)
    : option nat * (gmap string string * Owner * option Object3D) :=
  let setupKey := "setup_" ++ name (avatar (instance o)) in
  if isAt window "__currentSetup" setupKey
  then (callCount, setupModel window o scale)
  else
    let callCount :=
      Some ((match callCount with Some n => n | None => 0 end) + 1)%nat in
    (callCount, setupModel window o scale).

(** The timer started by [setupModel], 100 ms later. *)
Definition autoplayTimer (o : Owner) : Owner :=
  match autoplay o, Animation.playStrippedRef (refs o) with
  | Some n, Some strippedClips =>
      mkOwner (instance o) (groupRef o) (containerRef o) (pivotRef o)
              (Animation.playStrippedByName strippedClips (refs o) n) None
  | _, _ => o
  end.


(** The window and the instances that passed the guard and are still
    mounted. *)
Record System := mkSystem {
  window : gmap string string;
  owners : list Owner
}.






(** Mounting needs a new instance: no live instance has its
    [componentId]. *)
Definition fresh (sys : System) (i : Instance) : Prop :=
  Forall (fun o => componentId (instance o) <> componentId i) (owners sys).





(** A rendered instance with the flag [hasSetupRunRef] of its [<group>]'s
    [onUpdate] callback. *)
Record Rendered := mkRendered {
  owner          : Owner;
  hasSetupRunRef : bool
}.

(** [onUpdate(self)]: [self] is the group, known by its children.  The
    callback attaches the group ref when it is missing and runs
    [setupModel] until it has returned a container once. *)
Definition onUpdate (window : gmap string string) (r : Rendered)
    (self : list Object3D) (scale : R) : gmap string string * Rendered :=
  let o := owner r in
  let o :=
    match groupRef o with
    | None => mkOwner (instance o) (Some self) (containerRef o) (pivotRef o)
                      (refs o) (autoplay o)
    | Some _ => o
    end in
  match hasSetupRunRef r, model (avatar (instance o)) with
  | false, Some _ =>
      let '(window, o, result) := setupModel window o scale in
      (window, mkRendered o (match result with Some _ => true | None => false end))
  | _, _ => (window, mkRendered o (hasSetupRunRef r))
  end.

End Setup.

End AvatarSystem.

(** ** Transform Synchronizer (the frame callback of [ModernAvatarSystem]) *)

Module Frame.

Local Open Scope R_scope.

(** The part of the [<group>] the frame callback writes. *)
Record GroupTransform := mkGroupTransform {
  groupPosition : R * R * R;
  groupRotation : R * R * R
}.

(** [a !== b] on numbers. *)
Definition differs (a b : R) : bool := if Req_dec_T a b then false else true.

Definition differs3 (a b : R * R * R) : bool :=
  differs (fst (fst a)) (fst (fst b)) || differs (snd (fst a)) (snd (fst b))
  || differs (snd a) (snd b).

(** The transform step: what the group holds afterwards and the two
    flags [positionChanged] and [rotationChanged]; without a group
    ([None]) nothing is written and both flags stay false. *)
Definition syncTransform (groupRef : option GroupTransform)
    (position rotation : R * R * R) : option GroupTransform * bool * bool :=
  match groupRef with
  | Some g =>
      let positionChanged := differs3 (groupPosition g) position in
      let g := mkGroupTransform position (groupRotation g) in
      let rotationChanged := differs3 (groupRotation g) rotation in
      let g := if rotationChanged then mkGroupTransform (groupPosition g) rotation else g in
      (Some g, positionChanged, rotationChanged)
  | None => (None, false, false)
  end.

End Frame.

(** ** Model Inspector ([analyzeModel]) *)

Module Inspector.

Import THREE.
Local Open Scope R_scope.

(** What [analyzeModel] reads of a node: its name and type, the two
    class flags, its material (none, one, or an array of [n]) and its
    geometry (none, indexed with [index.count], or not indexed, with or
    without a position attribute of [position.count]). *)
Inductive Material := NoMaterial | OneMaterial | MaterialArray (n : nat).

Inductive Geometry :=
| NoGeometry
| Indexed (indexCount : nat)
| NotIndexed (positionCount : option nat).

Unset Elimination Schemes.
Inductive SceneObject :=
  mkSceneObject (objName objType : string) (isMesh isSkinnedMesh : bool)
                (material : Material) (geometry : Geometry)
                (objChildren : list SceneObject).
Set Elimination Schemes.

Definition objName (o : SceneObject) : string :=
  let 'mkSceneObject n _ _ _ _ _ _ := o in n.
Definition objType (o : SceneObject) : string :=
  let 'mkSceneObject _ t _ _ _ _ _ := o in t.
Definition isMesh (o : SceneObject) : bool :=
  let 'mkSceneObject _ _ b _ _ _ _ := o in b.
Definition isSkinnedMesh (o : SceneObject) : bool :=
  let 'mkSceneObject _ _ _ b _ _ _ := o in b.
Definition material (o : SceneObject) : Material :=
  let 'mkSceneObject _ _ _ _ m _ _ := o in m.
Definition geometry (o : SceneObject) : Geometry :=
  let 'mkSceneObject _ _ _ _ _ g _ := o in g.

(** [Object3D.traverse]: the node itself, then each child's subtree, in
    order. *)
Fixpoint traverse (o : SceneObject) : list SceneObject :=
  let 'mkSceneObject _ _ _ _ _ _ children := o in
  o :: flat_map traverse children.

(** The counters of [analyzeModel]. *)
Record Counters := mkCounters {
  names              : list string;
  meshCount          : nat;
  materialCount      : nat;
  skinnedMeshCount   : nat;
  totalTriangleCount : R
}.

(** The callback handed to [root.traverse]. *)
Definition visit (c : Counters) (obj : SceneObject) : Counters :=
  let names := names c ++ [if JS.truthy (objName obj) then objName obj else objType obj] in
  let c :=
    if isMesh obj then
      let materialCount :=
        match material obj with
        | MaterialArray n => (materialCount c + n)%nat
        | OneMaterial => (materialCount c + 1)%nat
        | NoMaterial => materialCount c
        end in
      let totalTriangleCount :=
        match geometry obj with
        | Indexed indexCount => totalTriangleCount c + INR indexCount / 3
        | NotIndexed (Some positionCount) => totalTriangleCount c + INR positionCount / 3
        | _ => totalTriangleCount c
        end in
      mkCounters names (meshCount c + 1) materialCount (skinnedMeshCount c)
                 totalTriangleCount
    else mkCounters names (meshCount c) (materialCount c) (skinnedMeshCount c)
                    (totalTriangleCount c) in
  if isSkinnedMesh obj
  then mkCounters (Inspector.names c) (meshCount c) (materialCount c)
                  (skinnedMeshCount c + 1) (totalTriangleCount c)
  else c.

Record ModelAnalysis := mkModelAnalysis {
  counters    : Counters;
  boundingBox : Box3;
  size        : Vector3;
  center      : Vector3
}.

Section Analyze.

(** [new THREE.Box3().setFromObject(root)], given as for the
    normalizer. *)
Variable setFromObject : SceneObject -> Box3.

Definition analyzeModel (root : SceneObject) : ModelAnalysis :=
  let c := fold_left visit (traverse root) (mkCounters [] 0 0 0 0) in
  let boundingBox := setFromObject root in
  mkModelAnalysis c boundingBox (getSize boundingBox) (getCenter boundingBox).

End Analyze.

End Inspector.

(** ** Sample data for the scenarios *)

Module Samples.

Import THREE.
Local Open Scope R_scope.

(** A bounding box from [(0,1,0)] to [(2,10,2)]: height 9, centre
    [(1, 5.5, 1)]. *)
Definition tallBox : Box3 := mkBox3 (mkVector3 0 1 0) (mkVector3 2 10 2).

(** Two clips as a loader delivers them, with root motion on the hips. *)
Definition hipsPosition : KeyframeTrack :=
  mkKeyframeTrack "Armature/Hips.position" [0; 0.5; 1] [0; 0; 0; 0; 0; 0.4; 0; 0; 0.8].

Definition hipsQuaternion : KeyframeTrack :=
  mkKeyframeTrack "Armature/Hips.quaternion" [0; 1] [0; 0; 0; 1; 0; 0; 0; 1].

Definition spineScale : KeyframeTrack :=
  mkKeyframeTrack "Spine.scale" [0; 1] [1; 1; 1; 1; 1; 1].

Definition idleClip : AnimationClip :=
  mkAnimationClip "Idle" 2 [hipsQuaternion; spineScale].

Definition walkClip : AnimationClip :=
  mkAnimationClip "Walk" 1 [hipsPosition; hipsQuaternion; spineScale].

(** [walkClip] without its position track. *)
Definition walkStripped : AnimationClip :=
  mkAnimationClip "Walk" 1 [hipsQuaternion; spineScale].

(** The animation refs once [setupModel] has run for the two clips, and
    once its autoplay timer has started "Idle". *)
Definition refsAfterSetup : Animation.Refs :=
  Animation.mkRefs (Some []) None (Some [idleClip; walkStripped]) None
                   (Some [idleClip; walkStripped]).

Definition refsPlayingIdle : Animation.Refs :=
  Animation.playStrippedByName [idleClip; walkStripped] refsAfterSetup "Idle".

(** The avatar "dr" and two component instances created for it. *)
Definition dr : AvatarSystem.Avatar :=
  AvatarSystem.mkAvatar "avatar-dr" "dr" (Some newGroup) (Some [idleClip; walkClip]).

Definition drFirst : AvatarSystem.Instance :=
  AvatarSystem.mkInstance dr "1757000000000" "k3j9x0a1b".

Definition drSecond : AvatarSystem.Instance :=
  AvatarSystem.mkInstance dr "1757000000042" "z8q2m4n6p".

(** A second avatar, and one that has no model yet. *)
Definition kaiju : AvatarSystem.Avatar :=
  AvatarSystem.mkAvatar "avatar-kaiju" "kaiju" (Some newGroup) None.

Definition kaijuFirst : AvatarSystem.Instance :=
  AvatarSystem.mkInstance kaiju "1757000000077" "q1w2e3r4t".

Definition ghostFirst : AvatarSystem.Instance :=
  AvatarSystem.mkInstance (AvatarSystem.mkAvatar "avatar-ghost" "ghost" None None)
                          "1757000000100" "a1b2c3d4e".

(** An owner whose setup has run for the two stripped clips and whose
    autoplay timer is still pending. *)
Definition drAwaitingAutoplay : AvatarSystem.Owner :=
  AvatarSystem.mkOwner drFirst (Some []) None None refsAfterSetup (Some "Idle"%string).

(** Hooks at the origin with a few keys held. *)
Definition hookHolding (keys : list string) : Movement.Hook :=
  Movement.mkHook keys (0, 0, 0) (0, 0, 0).

(** A small hierarchy: an armature with a skinned body mesh and a bone. *)
Definition armature : Inspector.SceneObject :=
  Inspector.mkSceneObject "Armature" "Group" false false
    Inspector.NoMaterial Inspector.NoGeometry
    [ Inspector.mkSceneObject "Body" "SkinnedMesh" true true
        (Inspector.MaterialArray 2) (Inspector.Indexed 300) [];
      Inspector.mkSceneObject "" "Bone" false false
        Inspector.NoMaterial Inspector.NoGeometry [] ].

End Samples.

(** * Properties *)

(** ** Movement Integrator *)

Section MovementProperties.

Import Movement.
Local Open Scope R_scope.

Variable baseSpeed : R.

(** What the loop over [MOVEMENT_KEYS] leaves in the locals. *)
Lemma directionsLoop_spec (keys : list string) (run : bool) (dt rot0 : R) :
  let fs := frameSpeed baseSpeed run dt in
  let l := directionsLoop baseSpeed keys run dt rot0 in
  moveX l = (if pressed keys left then 0 - fs else 0)
            + (if pressed keys right then fs else 0)
  /\ moveZ l = (if pressed keys forward then 0 - fs else 0)
               + (if pressed keys backward then fs else 0)
  /\ moving l = pressed keys forward || pressed keys backward
                || pressed keys left || pressed keys right.
Proof.
  unfold directionsLoop, MOVEMENT_KEYS, pressed; cbn [fold_left iteration].
  destruct (JS.some (has keys) ["KeyW"; "ArrowUp"]%string),
           (JS.some (has keys) ["KeyS"; "ArrowDown"]%string),
           (JS.some (has keys) ["KeyA"; "ArrowLeft"]%string),
           (JS.some (has keys) ["KeyD"; "ArrowRight"]%string);
    cbn; repeat split; lra.
Qed.

Lemma returnState_velocity (h : Hook) (arg : option R) :
  let l := directionsLoop baseSpeed (keysPressed h) (runPressed (keysPressed h))
             (deltaTimeOf arg) (snd (fst (currentRotation h))) in
  velocity (returnState (updateMovement baseSpeed h arg))
  = mkVelocity (moveX l) (moveZ l) (hypot (moveX l) (moveZ l)).
Proof. reflexivity. Qed.

Lemma returnState_isMoving (h : Hook) (arg : option R) :
  isMoving (returnState (updateMovement baseSpeed h arg))
  = pressed (keysPressed h) forward || pressed (keysPressed h) backward
    || pressed (keysPressed h) left || pressed (keysPressed h) right.
Proof.
  cbn -[directionsLoop].
  apply (directionsLoop_spec (keysPressed h)).
Qed.

Lemma returnState_position (h : Hook) (arg : option R) :
  let l := directionsLoop baseSpeed (keysPressed h) (runPressed (keysPressed h))
             (deltaTimeOf arg) (snd (fst (currentRotation h))) in
  position (returnState (updateMovement baseSpeed h arg))
  = if moving l
    then (fst (fst (currentPosition h)) + moveX l,
          snd (fst (currentPosition h)),
          snd (currentPosition h) + moveZ l)
    else currentPosition h.
Proof.
  cbn -[directionsLoop]. unfold runPressed, deltaTimeOf.
  destruct (moving _); [| reflexivity].
  destruct (currentPosition h) as [[px py] pz]; reflexivity.
Qed.

(** C9. Holding both keys of an opposing pair (forward+back or
    left+right) gives, for every deltaTime, a zero velocity component on
    that axis and leaves the position on that axis where it was: both
    directions add the same [frameSpeed], with opposite signs, to the
    same accumulator. *)
Theorem opposing_keys_cancel (h : Hook) (arg : option R) (a : Axis) :
  opposingHeld (keysPressed h) a = true ->
  let st := returnState (updateMovement baseSpeed h arg) in
  velocityOn a (velocity st) = 0
  /\ coordinate a (position st) = coordinate a (currentPosition h).
Proof.
  intros Hheld st; subst st.
  rewrite returnState_velocity, returnState_position.
  destruct (directionsLoop_spec (keysPressed h) (runPressed (keysPressed h))
              (deltaTimeOf arg) (snd (fst (currentRotation h)))) as (HX & HZ & HM).
  rewrite HM.
  destruct a; unfold opposingHeld in Hheld; apply andb_prop in Hheld as [H1 H2];
    rewrite H1, H2 in *; cbn [orb velocityOn coordinate x z fst snd].
  - rewrite orb_true_r, HX. cbn [fst snd]. split; lra.
  - rewrite HZ. cbn [fst snd]. split; lra.
Qed.

(** C10. The returned state has [isMoving = true] exactly when at least
    one directional key is held (one of the eight key codes of
    [MOVEMENT_KEYS] is in the key set), and [isMoving = false] exactly
    when none is; this also holds when every held direction is cancelled by its
    opposite, in which case the velocity and its speed are zero and the
    position is the stored one: [isMoving] follows the keys, not the
    displacement. *)
Theorem isMoving_follows_keys (h : Hook) (arg : option R) :
  let st := returnState (updateMovement baseSpeed h arg) in
  (isMoving st = true <-> exists d, pressed (keysPressed h) d = true)
  /\ (isMoving st = false <-> forall d, pressed (keysPressed h) d = false)
  /\ (isMoving st = true
      <-> exists code, In code (concat (map snd MOVEMENT_KEYS))
                       /\ has (keysPressed h) code = true)
  /\ (pressed (keysPressed h) forward = pressed (keysPressed h) backward ->
      pressed (keysPressed h) left = pressed (keysPressed h) right ->
      x (velocity st) = 0 /\ z (velocity st) = 0 /\ speed (velocity st) = 0
      /\ position st = currentPosition h).
Proof.
  intros st; subst st. split; [| split; [| split]].
  - rewrite returnState_isMoving. split.
    + intros Hm.
      destruct (pressed (keysPressed h) forward) eqn:Hf; [exists forward; exact Hf |].
      destruct (pressed (keysPressed h) backward) eqn:Hb; [exists backward; exact Hb |].
      destruct (pressed (keysPressed h) left) eqn:Hl; [exists left; exact Hl |].
      exists right. exact Hm.
    + intros [d Hd]. destruct d; rewrite Hd, ?orb_true_r; reflexivity.
  - rewrite returnState_isMoving. split.
    + intros Hm d.
      apply orb_false_elim in Hm as [Hm Hr].
      apply orb_false_elim in Hm as [Hm Hl].
      apply orb_false_elim in Hm as [Hf Hb].
      destruct d; assumption.
    + intros Hall.
      rewrite (Hall forward), (Hall backward), (Hall left), (Hall right). reflexivity.
  - rewrite returnState_isMoving. unfold pressed, JS.some.
    cbn [existsb MOVEMENT_KEYS map snd concat app]. split.
    + intros Hm.
      repeat match goal with
             | H : _ || _ = true |- _ => apply orb_prop in H as [H | H]
             end;
        try discriminate;
        match goal with
        | H : has _ ?k = true |- _ => exists k; split; [cbn; tauto | exact H]
        end.
    + intros (code & Hin & Hhas). cbn [In] in Hin.
      repeat match type of Hin with
             | _ \/ _ => destruct Hin as [<- | Hin]
             end;
        try contradiction; rewrite Hhas, ?orb_true_r; reflexivity.
  - intros HZ HX.
    rewrite returnState_velocity, returnState_position.
    destruct (directionsLoop_spec (keysPressed h) (runPressed (keysPressed h))
                (deltaTimeOf arg) (snd (fst (currentRotation h)))) as (EX & EZ & _).
    rewrite HX in EX; rewrite HZ in EZ.
    assert (X0 : moveX (directionsLoop baseSpeed (keysPressed h)
                 (runPressed (keysPressed h)) (deltaTimeOf arg)
                 (snd (fst (currentRotation h)))) = 0)
      by (rewrite EX; destruct (pressed _ right); lra).
    assert (Z0 : moveZ (directionsLoop baseSpeed (keysPressed h)
                 (runPressed (keysPressed h)) (deltaTimeOf arg)
                 (snd (fst (currentRotation h)))) = 0)
      by (rewrite EZ; destruct (pressed _ backward); lra).
    cbn [x z speed]. rewrite X0, Z0. repeat split.
    + unfold hypot. replace (0 * 0 + 0 * 0) with 0 by lra. apply sqrt_0.
    + destruct (moving _); [| reflexivity].
      destruct (currentPosition h) as [[px py] pz]; cbn. repeat f_equal; lra.
Qed.

Lemma returnState_rotation (h : Hook) (arg : option R) :
  let l := directionsLoop baseSpeed (keysPressed h) (runPressed (keysPressed h))
             (deltaTimeOf arg) (snd (fst (currentRotation h))) in
  rotation (returnState (updateMovement baseSpeed h arg))
  = if moving l
    then (0, (if Rlt_dec 1e-6 (hypot (moveX l) (moveZ l))
              then atan2 (- moveX l) (- moveZ l) else newRotY l), 0)
    else currentRotation h.
Proof.
  cbn -[directionsLoop Rlt_dec]. unfold runPressed, deltaTimeOf.
  destruct (moving _); [| reflexivity].
  destruct (currentPosition h) as [[px py] pz]; reflexivity.
Qed.

Lemma heldDirections_flags (keys : list string) :
  heldDirections keys
  = (if pressed keys forward then [forward] else [])
    ++ (if pressed keys backward then [backward] else [])
    ++ (if pressed keys left then [left] else [])
    ++ (if pressed keys right then [right] else []).
Proof.
  unfold heldDirections; cbn [filter].
  destruct (pressed keys forward), (pressed keys backward),
           (pressed keys left), (pressed keys right); reflexivity.
Qed.

Lemma held_forward_only (keys : list string) :
  heldDirections keys = [forward] ->
  pressed keys forward = true /\ pressed keys backward = false
  /\ pressed keys left = false /\ pressed keys right = false.
Proof.
  rewrite heldDirections_flags.
  destruct (pressed keys forward), (pressed keys backward),
           (pressed keys left), (pressed keys right); cbn; intros H;
    try discriminate H; auto.
Qed.

Lemma held_forward_left (keys : list string) :
  heldDirections keys = [forward; left] ->
  pressed keys forward = true /\ pressed keys backward = false
  /\ pressed keys left = true /\ pressed keys right = false.
Proof.
  rewrite heldDirections_flags.
  destruct (pressed keys forward), (pressed keys backward),
           (pressed keys left), (pressed keys right); cbn; intros H;
    try discriminate H; auto.
Qed.

Lemma hypot_axis (b : R) : hypot 0 b = Rabs b.
Proof.
  unfold hypot. replace (0 * 0 + b * b) with (Rsqr b) by (unfold Rsqr; lra).
  apply sqrt_Rsqr_abs.
Qed.

Lemma hypot_diagonal (b : R) : hypot b b = sqrt 2 * Rabs b.
Proof.
  unfold hypot. replace (b * b + b * b) with (2 * Rsqr b) by (unfold Rsqr; lra).
  rewrite sqrt_mult by (try apply Rle_0_sqr; lra).
  now rewrite sqrt_Rsqr_abs.
Qed.

Lemma sqrt2_bounds : 1 < sqrt 2 < 2.
Proof.
  split.
  - rewrite <- sqrt_1 at 1. apply sqrt_lt_1; lra.
  - replace 2 with (sqrt (2 * 2)) at 2 by (apply sqrt_square; lra).
    apply sqrt_lt_1; lra.
Qed.

Lemma speed_forward_only (h : Hook) (arg : option R) :
  heldDirections (keysPressed h) = [forward] ->
  speed (velocity (returnState (updateMovement baseSpeed h arg)))
  = Rabs (frameSpeed baseSpeed (runPressed (keysPressed h)) (deltaTimeOf arg)).
Proof.
  intros (F & B & L & Rt)%held_forward_only.
  rewrite returnState_velocity; cbn [speed].
  destruct (directionsLoop_spec (keysPressed h) (runPressed (keysPressed h))
              (deltaTimeOf arg) (snd (fst (currentRotation h)))) as (EX & EZ & _).
  rewrite EX, EZ, F, B, L, Rt.
  replace (0 + 0) with 0 by lra.
  rewrite hypot_axis, Rplus_0_r, Rminus_0_l. apply Rabs_Ropp.
Qed.

Lemma speed_forward_left (h : Hook) (arg : option R) :
  heldDirections (keysPressed h) = [forward; left] ->
  speed (velocity (returnState (updateMovement baseSpeed h arg)))
  = sqrt 2 * Rabs (frameSpeed baseSpeed (runPressed (keysPressed h)) (deltaTimeOf arg)).
Proof.
  intros (F & B & L & Rt)%held_forward_left.
  rewrite returnState_velocity; cbn [speed].
  destruct (directionsLoop_spec (keysPressed h) (runPressed (keysPressed h))
              (deltaTimeOf arg) (snd (fst (currentRotation h)))) as (EX & EZ & _).
  rewrite EX, EZ, F, B, L, Rt.
  rewrite hypot_diagonal, Rplus_0_r, Rminus_0_l, Rabs_Ropp. reflexivity.
Qed.

(** C1 (as the code has it). For every deltaTime and the same run state,
    the speed returned for diagonal input (forward and left) is the
    magnitude of the resultant vector: [sqrt 2] times the speed returned
    for forward alone.  When that speed is not zero it lies strictly
    between the single-axis speed and the per-axis sum. *)
Theorem diagonal_speed_is_resultant (hd hs : Hook) (arg : option R) :
  heldDirections (keysPressed hd) = [forward; left] ->
  heldDirections (keysPressed hs) = [forward] ->
  runPressed (keysPressed hd) = runPressed (keysPressed hs) ->
  let diagonal := speed (velocity (returnState (updateMovement baseSpeed hd arg))) in
  let single := speed (velocity (returnState (updateMovement baseSpeed hs arg))) in
  diagonal = sqrt 2 * single
  /\ (0 < single -> single < diagonal < single + single).
Proof.
  intros Hd Hs Hrun diagonal single; subst diagonal single.
  rewrite (speed_forward_left hd arg Hd), (speed_forward_only hs arg Hs), Hrun.
  split; [reflexivity |].
  pose proof sqrt2_bounds. intros Hpos. nra.
Qed.

Lemma has_ext (k1 k2 : list string) :
  (forall k, In k k1 <-> In k k2) -> forall k, has k1 k = has k2 k.
Proof.
  intros Hin k. unfold has.
  apply eq_true_iff_eq. rewrite !existsb_exists.
  split; intros (y & Hy & E); exists y; split; auto; now apply Hin.
Qed.

Lemma some_has_ext (k1 k2 : list string) (codes : list string) :
  (forall k, In k k1 <-> In k k2) ->
  JS.some (has k1) codes = JS.some (has k2) codes.
Proof.
  intros Hin. unfold JS.some.
  induction codes as [| c codes IH]; cbn; [reflexivity |].
  now rewrite IH, (has_ext k1 k2 Hin c).
Qed.

Lemma directionsLoop_ext (k1 k2 : list string) (run : bool) (dt rot0 : R) :
  (forall k, In k k1 <-> In k k2) ->
  directionsLoop baseSpeed k1 run dt rot0 = directionsLoop baseSpeed k2 run dt rot0.
Proof.
  intros Hin. unfold directionsLoop.
  generalize (mkLocals 0 0 rot0 false).
  induction MOVEMENT_KEYS as [| [d codes] entries IH]; intros l; cbn [fold_left];
    [reflexivity |].
  rewrite IH. f_equal. unfold iteration.
  now rewrite (some_has_ext k1 k2 codes Hin).
Qed.

(** C7 (as the code has it). The returned state is a function of the
    previous position, the previous rotation, the pressed-key set and
    deltaTime (for the configured base speed): two calls that agree on
    these return the same position, rotation, flags and velocity, and
    [activeKeys] with the same members (listed in the order in which the
    keys went down). *)
Theorem returnState_determined_by_inputs (h1 h2 : Hook) (arg : option R) :
  currentPosition h1 = currentPosition h2 ->
  currentRotation h1 = currentRotation h2 ->
  (forall k, In k (keysPressed h1) <-> In k (keysPressed h2)) ->
  let s1 := returnState (updateMovement baseSpeed h1 arg) in
  let s2 := returnState (updateMovement baseSpeed h2 arg) in
  position s1 = position s2
  /\ rotation s1 = rotation s2
  /\ isMoving s1 = isMoving s2
  /\ isRunning s1 = isRunning s2
  /\ velocity s1 = velocity s2
  /\ (forall k, In k (activeKeys s1) <-> In k (activeKeys s2)).
Proof.
  intros Hpos Hrot Hkeys s1 s2; subst s1 s2.
  assert (Hrun : runPressed (keysPressed h1) = runPressed (keysPressed h2))
    by (apply some_has_ext, Hkeys).
  rewrite !returnState_position, !returnState_rotation, !returnState_velocity.
  cbn [isMoving isRunning activeKeys returnState updateMovement].
  fold (runPressed (keysPressed h1)) (runPressed (keysPressed h2)).
  rewrite Hpos, Hrot, Hrun.
  rewrite (directionsLoop_ext (keysPressed h1) (keysPressed h2) _ _ _ Hkeys).
  repeat split; auto; apply Hkeys.
Qed.

(** The keyboard handlers keep [keysPressed] a set: pressing a held key
    again changes nothing, and releasing a key takes it out. *)
Lemma has_add (keys : list string) (code : string) : has (add keys code) code = true.
Proof.
  unfold add. destruct (has keys code) eqn:E; [exact E |].
  unfold has. rewrite existsb_app. cbn. now rewrite String.eqb_refl, orb_true_r.
Qed.

Lemma has_delete (keys : list string) (code : string) : has (delete keys code) code = false.
Proof.
  unfold has, delete. induction keys as [| k keys IH]; cbn; [reflexivity |].
  destruct (String.eqb code k) eqn:E; cbn; [exact IH |].
  now rewrite E.
Qed.

Lemma handleKeyDown_idempotent (h : Hook) (code : string) :
  handleKeyDown (handleKeyDown h code) code = handleKeyDown h code.
Proof.
  unfold handleKeyDown. destruct (existsb (String.eqb code) allKeys); [| reflexivity].
  destruct (has (keysPressed h) code) eqn:E; cbn [negb keysPressed].
  - now rewrite E.
  - now rewrite has_add.
Qed.

Lemma handleKeyUp_releases (h : Hook) (code : string) :
  existsb (String.eqb code) allKeys = true ->
  has (keysPressed (handleKeyUp h code)) code = false.
Proof.
  intros Hknown. unfold handleKeyUp. rewrite Hknown.
  destruct (has (keysPressed h) code) eqn:E; cbn [keysPressed];
    [apply has_delete | exact E].
Qed.

End MovementProperties.

Section MovementScenarios.

Import Movement.
Local Open Scope R_scope.

(** C8. From position [0,0,0], with only the forward direction held,
    deltaTime [0.016], base speed [0.2] and no run key, the update works
    with [frameSpeed = baseSpeed * 1 * (deltaTime * 60) = 0.192] and
    returns [moveZ = -0.192], position [0,0,-0.192] and yaw [0]. *)
Theorem scenario_A_forward_step (h : Hook) :
  currentPosition h = (0, 0, 0) ->
  heldDirections (keysPressed h) = [forward] ->
  runPressed (keysPressed h) = false ->
  let st := returnState (updateMovement 0.2 h (Some 0.016)) in
  frameSpeed 0.2 (isRunning st) 0.016 = 0.2 * 1 * (0.016 * 60)
  /\ x (velocity st) = 0
  /\ z (velocity st) = - 0.192
  /\ position st = (0, 0, - 0.192)
  /\ snd (fst (rotation st)) = 0
  /\ isMoving st = true.
Proof.
  intros Hpos Hheld Hrun st; subst st.
  apply held_forward_only in Hheld as (F & B & L & Rt).
  rewrite returnState_velocity, returnState_position, returnState_rotation,
    returnState_isMoving.
  destruct (directionsLoop_spec 0.2 (keysPressed h) (runPressed (keysPressed h))
              (deltaTimeOf (Some 0.016)) (snd (fst (currentRotation h))))
    as (EX & EZ & EM).
  rewrite EM, EX, EZ, F, B, L, Rt, Hrun, Hpos.
  cbn [orb x z fst snd deltaTimeOf isRunning returnState updateMovement].
  unfold runPressed in Hrun. rewrite Hrun.
  unfold frameSpeed, runMultiplier.
  replace (0 - 0.2 * 1.0 * (0.016 * 60) + 0) with (- 0.192) by lra.
  replace (0 + 0) with 0 by lra.
  rewrite hypot_axis.
  destruct (Rlt_dec 1e-6 (Rabs (- 0.192))) as [_ | Hn].
  - repeat split; try lra.
    + repeat f_equal; lra.
    + unfold atan2. destruct (Rlt_dec 0 (- - 0.192)) as [_ | Hn]; [| lra].
      replace (- 0 / - - 0.192) with 0 by lra. apply atan_0.
  - exfalso; apply Hn. unfold Rabs; destruct (Rcase_abs _); lra.
Qed.

End MovementScenarios.

Section MovementInstances.

Import Movement.
Local Open Scope R_scope.

Lemma scenario_A_forward_step_witness :
  let st := returnState (updateMovement 0.2
              (mkHook ["KeyW"%string] (0, 0, 0) (0, 0, 0)) (Some 0.016)) in
  z (velocity st) = - 0.192
  /\ position st = (0, 0, - 0.192)
  /\ snd (fst (rotation st)) = 0.
Proof.
  pose proof (scenario_A_forward_step
                (mkHook ["KeyW"%string] (0, 0, 0) (0, 0, 0))
                eq_refl eq_refl eq_refl) as H.
  cbv zeta in H. intuition.
Defined.

(** C1 fails as stated: at deltaTime [0.016] and base speed [0.2], with
    no run key, forward+left returns a speed different from the one
    forward alone returns. *)
Lemma diagonal_speed_differs :
  speed (velocity (returnState (updateMovement 0.2
           (mkHook ["KeyW"; "KeyA"]%string (0, 0, 0) (0, 0, 0)) (Some 0.016))))
  <> speed (velocity (returnState (updateMovement 0.2
           (mkHook ["KeyW"%string] (0, 0, 0) (0, 0, 0)) (Some 0.016)))).
Proof.
  rewrite (speed_forward_left 0.2 (mkHook ["KeyW"; "KeyA"]%string (0, 0, 0) (0, 0, 0))
             (Some 0.016) eq_refl).
  rewrite (speed_forward_only 0.2 (mkHook ["KeyW"%string] (0, 0, 0) (0, 0, 0))
             (Some 0.016) eq_refl).
  cbn [keysPressed]. replace (runPressed ["KeyW"; "KeyA"]%string) with false by reflexivity.
  replace (runPressed ["KeyW"%string]) with false by reflexivity.
  unfold frameSpeed, runMultiplier, deltaTimeOf.
  replace (0.2 * 1.0 * (0.016 * 60)) with 0.192 by lra.
  rewrite Rabs_pos_eq by lra.
  pose proof sqrt2_bounds. nra.
Qed.

Lemma diagonal_speed_is_resultant_witness :
  let diagonal := speed (velocity (returnState (updateMovement 0.2
           (mkHook ["KeyW"; "KeyA"]%string (0, 0, 0) (0, 0, 0)) (Some 0.016)))) in
  let single := speed (velocity (returnState (updateMovement 0.2
           (mkHook ["KeyW"%string] (0, 0, 0) (0, 0, 0)) (Some 0.016)))) in
  diagonal = sqrt 2 * single.
Proof.
  exact (proj1 (diagonal_speed_is_resultant 0.2
           (mkHook ["KeyW"; "KeyA"]%string (0, 0, 0) (0, 0, 0))
           (mkHook ["KeyW"%string] (0, 0, 0) (0, 0, 0))
           (Some 0.016) eq_refl eq_refl eq_refl)).
Defined.

(** C7 fails as stated: two calls that agree on the previous rotation,
    the pressed keys and deltaTime, but start from different positions,
    return different states. *)
Lemma update_depends_on_position :
  let h1 := mkHook ["KeyW"%string] (0, 0, 0) (0, 0, 0) in
  let h2 := mkHook ["KeyW"%string] (1, 0, 0) (0, 0, 0) in
  currentRotation h1 = currentRotation h2
  /\ keysPressed h1 = keysPressed h2
  /\ returnState (updateMovement 0.2 h1 (Some 0.016))
     <> returnState (updateMovement 0.2 h2 (Some 0.016)).
Proof.
  cbv zeta. split; [reflexivity |]. split; [reflexivity |].
  intros E. apply (f_equal (fun s => fst (fst (position s)))) in E.
  rewrite !returnState_position in E.
  cbn [keysPressed currentPosition currentRotation fst snd] in E.
  destruct (moving _) in E; cbn [fst snd] in E; lra.
Qed.

Lemma returnState_determined_by_inputs_witness :
  let s1 := returnState (updateMovement 0.2
              (mkHook ["KeyW"; "KeyA"]%string (0, 0, 0) (0, 0, 0)) (Some 0.016)) in
  let s2 := returnState (updateMovement 0.2
              (mkHook ["KeyA"; "KeyW"]%string (0, 0, 0) (0, 0, 0)) (Some 0.016)) in
  position s1 = position s2 /\ rotation s1 = rotation s2
  /\ velocity s1 = velocity s2.
Proof.
  assert (Hk : forall k, In k ["KeyW"; "KeyA"]%string <-> In k ["KeyA"; "KeyW"]%string)
    by (intros k; cbn; tauto).
  pose proof (returnState_determined_by_inputs 0.2
                (mkHook ["KeyW"; "KeyA"]%string (0, 0, 0) (0, 0, 0))
                (mkHook ["KeyA"; "KeyW"]%string (0, 0, 0) (0, 0, 0))
                (Some 0.016) eq_refl eq_refl Hk) as H.
  cbv zeta in H. intuition.
Defined.

Lemma opposing_keys_cancel_witness :
  let st := returnState (updateMovement 0.2
              (mkHook ["KeyW"; "KeyS"]%string (0, 0, 0) (0, 0, 0)) (Some 0.016)) in
  z (velocity st) = 0 /\ snd (position st) = 0.
Proof.
  exact (opposing_keys_cancel 0.2
           (mkHook ["KeyW"; "KeyS"]%string (0, 0, 0) (0, 0, 0))
           (Some 0.016) AxisZ eq_refl).
Defined.

Lemma isMoving_follows_keys_witness :
  let cancelled := returnState (updateMovement 0.2
              (mkHook ["KeyW"; "KeyS"]%string (0, 0, 0) (0, 0, 0)) (Some 0.016)) in
  let idle := returnState (updateMovement 0.2
              (mkHook ["ShiftLeft"]%string (0, 0, 0) (0, 0, 0)) (Some 0.016)) in
  isMoving cancelled = true /\ speed (velocity cancelled) = 0
  /\ isMoving idle = false.
Proof.
  pose proof (isMoving_follows_keys 0.2
                (mkHook ["KeyW"; "KeyS"]%string (0, 0, 0) (0, 0, 0))
                (Some 0.016)) as (Hm & _ & _ & Hz).
  pose proof (isMoving_follows_keys 0.2
                (mkHook ["ShiftLeft"]%string (0, 0, 0) (0, 0, 0))
                (Some 0.016)) as (_ & Hi & _).
  cbv zeta. split; [| split].
  - apply Hm. exists forward. reflexivity.
  - exact (proj1 (proj2 (proj2 (Hz eq_refl eq_refl)))).
  - apply Hi. intros d. destruct d; reflexivity.
Defined.

End MovementInstances.

(** ** Model Normalizer *)

Section NormalizerProperties.

Import THREE Normalizer.
Local Open Scope R_scope.

Variable setFromObject : Object3D -> Box3.

Lemma ltb_true (a b : R) : a < b -> JS.ltb a b = true.
Proof. intros H. unfold JS.ltb. destruct (Rlt_dec a b); [reflexivity | contradiction]. Qed.

Lemma ltb_false (a b : R) : ~ a < b -> JS.ltb a b = false.
Proof. intros H. unfold JS.ltb. destruct (Rlt_dec a b); [contradiction | reflexivity]. Qed.

Lemma truthyNumber_true (v : R) : v <> 0 -> truthyNumber v = true.
Proof. intros H. unfold truthyNumber. destruct (Req_dec_T v 0); [contradiction | reflexivity]. Qed.

(** The container always has the pivot as its only child, and the pivot
    the model; the pivot keeps scale 1. *)
Lemma container_shape (model : Object3D) (options : NormalizeOptions) :
  exists pivot,
    children (createNormalizedContainer setFromObject model options) = [pivot]
    /\ pivotOf (createNormalizedContainer setFromObject model options) = Some pivot
    /\ name pivot = "AvatarPivot"%string
    /\ scale pivot = mkVector3 1 1 1
    /\ children pivot = [model]
    /\ position pivot
       = if match centerToGround options with Some b => b | None => true end
         then mkVector3 (- x (getCenter (setFromObject model)))
                        (- y (min (setFromObject model)))
                        (- z (getCenter (setFromObject model)))
         else mkVector3 0 0 0.
Proof.
  unfold createNormalizedContainer, pivotOf.
  destruct (match centerToGround options with Some b => b | None => true end);
    destruct (targetHeight options) as [t |];
    try destruct (truthyNumber t && JS.ltb 0 (y (getSize (setFromObject model))));
    eexists; repeat split; reflexivity.
Qed.

(** C3 (as the code has it). With [centerToGround] left at its default
    or set to true, the pivot sits at
    [(-center.x, -boundingBoxMinY, -center.z)]; with [centerToGround]
    false it stays at the origin; either way the pivot does not depend on
    the target height.  Whatever [centerToGround] is: when [targetHeight]
    is given, is not zero and the bounding-box height is positive, the
    container's scale is [targetHeight / boundingBoxHeight] on all three
    axes (height 9.0 and target 1.8 give 0.2); when no target height is
    given, or it is zero, or the height is not positive, the container's
    scale stays 1. *)
Theorem normalized_container_pivot_and_scale (model : Object3D) (options : NormalizeOptions) :
  let container := createNormalizedContainer setFromObject model options in
  let bbox := setFromObject model in
  let height := y (getSize bbox) in
  (exists pivot,
      pivotOf container = Some pivot
      /\ (centerToGround options <> Some false ->
          position pivot = mkVector3 (- x (getCenter bbox)) (- y (min bbox))
                                     (- z (getCenter bbox)))
      /\ (centerToGround options = Some false -> position pivot = mkVector3 0 0 0)
      /\ pivotOf (createNormalizedContainer setFromObject model
                    (mkNormalizeOptions None (centerToGround options)))
         = Some pivot)
  /\ (forall t, targetHeight options = Some t -> t <> 0 -> 0 < height ->
        scale container = mkVector3 (t / height) (t / height) (t / height))
  /\ (targetHeight options = Some 1.8 -> height = 9.0 ->
        scale container = setScalar 0.2)
  /\ (targetHeight options = None \/ targetHeight options = Some 0 \/ ~ 0 < height ->
        scale container = mkVector3 1 1 1).
Proof.
  intros container bbox height.
  assert (Hscale : forall t, targetHeight options = Some t -> t <> 0 -> 0 < height ->
            scale container = setScalar (t / height)).
  { intros t Ht Hnz Hpos. subst container.
    unfold createNormalizedContainer. rewrite Ht.
    fold bbox. fold height.
    rewrite (truthyNumber_true t Hnz), (ltb_true 0 height Hpos). reflexivity. }
  split; [| split; [| split]].
  - destruct (container_shape model options) as (pivot & _ & Hp & _ & _ & _ & Hpos).
    exists pivot. split; [exact Hp |]. split; [| split].
    + intros Hground. rewrite Hpos.
      destruct (centerToGround options) as [[|] |];
        [reflexivity | contradiction Hground; reflexivity | reflexivity].
    + intros Hoff. rewrite Hpos, Hoff. reflexivity.
    + rewrite <- Hp. subst container.
      unfold createNormalizedContainer, pivotOf. cbn [targetHeight centerToGround].
      destruct (targetHeight options) as [t |]; [| reflexivity].
      destruct (truthyNumber t && JS.ltb 0 (y (getSize (setFromObject model)))); reflexivity.
  - intros t Ht Hnz Hpos. apply (Hscale t Ht Hnz Hpos).
  - intros Ht Hh. rewrite (Hscale 1.8 Ht); [| lra | lra].
    rewrite Hh. unfold setScalar. f_equal; lra.
  - intros Hno. subst container. unfold createNormalizedContainer.
    fold bbox. fold height.
    destruct Hno as [Hnone | [Hzero | Hflat]].
    + rewrite Hnone. reflexivity.
    + rewrite Hzero. unfold truthyNumber.
      destruct (Req_dec_T 0 0) as [_ | Hn]; [reflexivity | contradiction Hn; reflexivity].
    + destruct (targetHeight options); [| reflexivity].
      rewrite (ltb_false 0 height Hflat), andb_false_r. reflexivity.
Qed.

End NormalizerProperties.

Section NormalizerInstances.

Import THREE Normalizer Samples.
Local Open Scope R_scope.

Lemma tallBox_not_empty : isEmpty tallBox = false.
Proof.
  unfold isEmpty, tallBox; cbn [x y z min max].
  rewrite !ltb_false by lra. reflexivity.
Qed.

Lemma tallBox_height : y (getSize tallBox) = 9.0.
Proof. unfold getSize. rewrite tallBox_not_empty. cbn. lra. Qed.

Lemma tallBox_center : x (getCenter tallBox) = 1 /\ z (getCenter tallBox) = 1.
Proof. unfold getCenter. rewrite tallBox_not_empty. cbn. split; lra. Qed.

(** C3 fails as stated: with [centerToGround: false] the pivot stays at
    the origin, and with [targetHeight: 0] (given, bounding-box height
    9) the scale stays 1 instead of becoming [0 / 9]. *)
Lemma normalize_guards_counterexample :
  let setFromObject := fun _ : Object3D => tallBox in
  let options := mkNormalizeOptions (Some 0) (Some false) in
  let container := createNormalizedContainer setFromObject newGroup options in
  let bbox := setFromObject newGroup in
  0 < y (getSize bbox)
  /\ (forall pivot, pivotOf container = Some pivot ->
        position pivot <> mkVector3 (- x (getCenter bbox)) (- y (min bbox))
                                    (- z (getCenter bbox)))
  /\ scale container <> setScalar (0 / y (getSize bbox)).
Proof.
  cbv beta zeta. rewrite tallBox_height. split; [lra |]. split.
  - intros pivot Hp.
    destruct (container_shape (fun _ => tallBox) newGroup
                (mkNormalizeOptions (Some 0) (Some false)))
      as (pivot' & _ & Hp' & _ & _ & _ & Hpos).
    rewrite Hp in Hp'. injection Hp' as <-.
    rewrite Hpos. cbn [centerToGround].
    destruct tallBox_center as [Hx _]. rewrite Hx.
    intros E. injection E as E _ _. lra.
  - unfold createNormalizedContainer; cbn [targetHeight centerToGround].
    unfold truthyNumber. destruct (Req_dec_T 0 0) as [_ | Hn]; [| contradiction Hn; reflexivity].
    cbn. intros E. injection E as E _ _. lra.
Qed.

Lemma normalized_container_pivot_and_scale_witness :
  scale (createNormalizedContainer (fun _ => tallBox) newGroup
           (mkNormalizeOptions (Some 1.8) (Some false)))
  = setScalar 0.2
  /\ exists pivot,
       pivotOf (createNormalizedContainer (fun _ => tallBox) newGroup
                  (mkNormalizeOptions (Some 1.8) (Some false))) = Some pivot
       /\ position pivot = mkVector3 0 0 0.
Proof.
  destruct (normalized_container_pivot_and_scale (fun _ => tallBox) newGroup
              (mkNormalizeOptions (Some 1.8) (Some false)))
    as ((pivot & Hp & _ & Horigin & _) & _ & Hscale & _).
  split.
  - exact (Hscale eq_refl tallBox_height).
  - exists pivot. split; [exact Hp | exact (Horigin eq_refl)].
Defined.

End NormalizerInstances.

(** ** Root-Motion Stripper *)

Section ClipsProperties.

Import THREE Clips Samples.
Local Open Scope R_scope.

Example isPosition_hips : isPosition hipsPosition = true.
Proof. reflexivity. Qed.

Example isPosition_quaternion : isPosition hipsQuaternion = false.
Proof. reflexivity. Qed.

Example isPosition_needs_dot :
  isPosition (mkKeyframeTrack "position" [] []) = false.
Proof. reflexivity. Qed.

Lemma getRootMotionStrippedClips_map (clips : list AnimationClip) :
  getRootMotionStrippedClips (Some clips) = map stripClip clips.
Proof. destruct clips; reflexivity. Qed.

Lemma strip_name (clip : AnimationClip) : clipName (stripClip clip) = clipName clip.
Proof. reflexivity. Qed.

Lemma strip_tracks (clip : AnimationClip) :
  tracks (stripClip clip) = filter (fun track => negb (isPosition track)) (tracks clip).
Proof. reflexivity. Qed.

Lemma strip_duration (clip : AnimationClip) :
  0 <= duration clip -> duration (stripClip clip) = duration clip.
Proof.
  intros H. unfold stripClip, newAnimationClip; cbn [duration].
  rewrite ltb_false by lra. reflexivity.
Qed.

Lemma filter_idempotent {A : Type} (f : A -> bool) (l : list A) :
  filter f (filter f l) = filter f l.
Proof.
  induction l as [| a l IH]; cbn; [reflexivity |].
  destruct (f a) eqn:E; cbn; rewrite ?E, IH; reflexivity.
Qed.

(** C4. For clips as the animation library builds them (duration not
    negative), the stripper returns one clip per input clip, in order,
    with the same name and the same duration, whose tracks are the
    input's tracks without those ending in ".position": no position
    track is left and the other tracks are the same, in number, content
    and order. *)
Theorem stripped_clips_keep_all_but_position (clips : list AnimationClip) :
  Forall (fun clip => 0 <= duration clip) clips ->
  Forall2 (fun clip stripped =>
             clipName stripped = clipName clip
             /\ duration stripped = duration clip
             /\ Forall (fun track => isPosition track = false) (tracks stripped)
             /\ filter (fun track => negb (isPosition track)) (tracks stripped)
                = filter (fun track => negb (isPosition track)) (tracks clip)
             /\ tracks stripped
                = filter (fun track => negb (isPosition track)) (tracks clip))
          clips (getRootMotionStrippedClips (Some clips)).
Proof.
  rewrite getRootMotionStrippedClips_map.
  induction 1 as [| clip clips Hd _ IH]; cbn [map]; constructor; [| exact IH].
  rewrite strip_name, strip_tracks, filter_idempotent, (strip_duration clip Hd).
  repeat split.
  apply Forall_forall. intros track [_ Hn]%filter_In.
  now apply negb_true_iff.
Qed.

Lemma stripped_clips_keep_all_but_position_witness :
  getRootMotionStrippedClips (Some [idleClip; walkClip])
  = [idleClip; mkAnimationClip "Walk" 1 [hipsQuaternion; spineScale]].
Proof.
  assert (Hd : Forall (fun clip => 0 <= duration clip) [idleClip; walkClip])
    by (repeat constructor; cbn; lra).
  pose proof (stripped_clips_keep_all_but_position [idleClip; walkClip] Hd) as H.
  destruct (getRootMotionStrippedClips (Some [idleClip; walkClip]))
    as [| [n1 d1 t1] [| [n2 d2 t2] [| ? ?]]];
    inversion H as [| ? ? ? ? (N1 & D1 & _ & _ & T1) H' ]; subst;
    inversion H' as [| ? ? ? ? (N2 & D2 & _ & _ & T2) H'' ]; subst;
    inversion H''.
  cbn in N1, D1, T1, N2, D2, T2. subst. reflexivity.
Defined.

End ClipsProperties.

(** ** Animation Selector *)

Section AnimationProperties.

Import THREE Animation.
Local Open Scope R_scope.

Example test_ignores_case : test (Words ["idle"%string]) "Breathing_IDLE_01" = true.
Proof. reflexivity. Qed.

Example test_alternatives :
  test (Words ["idle"; "stand"; "tpose"]%string) "TPose" = true
  /\ test (Words ["idle"; "stand"; "tpose"]%string) "Walk" = false.
Proof. split; reflexivity. Qed.

Example test_empty_only : test EmptyOnly "" = true /\ test EmptyOnly "Run" = false.
Proof. split; reflexivity. Qed.

Lemma findBy_names_a_clip (clips : list AnimationClip) (patterns : list RegExp) (n : string) :
  findBy clips patterns = Some n -> exists c, In c clips /\ clipName c = n.
Proof.
  induction patterns as [| p patterns IH]; cbn; [discriminate |].
  destruct (JS.find _ clips) as [hit |] eqn:E; [| exact IH].
  intros [= <-]. apply find_some in E as [Hin _]. eauto.
Qed.

Lemma head_In {A : Type} (l : list A) (a : A) : List.head l = Some a -> In a l.
Proof. destruct l; cbn; [discriminate | intros [= ->]; now left]. Qed.

(** The wanted name is always the name of one of the clips. *)
Lemma want_names_a_clip (clips : list AnimationClip) (isMoving isRunning : bool) (n : string) :
  want clips isMoving isRunning = Some n -> exists c, In c clips /\ clipName c = n.
Proof.
  unfold want.
  set (idlePatterns := [Words ["smok"%string]; _; _; _]).
  set (movingPatterns := [_; _; _; _; _]).
  assert (Hidle : (if truthyName (findBy clips idlePatterns)
                   then findBy clips idlePatterns
                   else option_map clipName (List.head clips)) = Some n ->
                  exists c, In c clips /\ clipName c = n).
  { destruct (truthyName _).
    - apply findBy_names_a_clip.
    - destruct (List.head clips) as [c |] eqn:E; cbn; [| discriminate].
      intros [= <-]. apply head_In in E. eauto. }
  destruct isMoving; [| exact Hidle].
  destruct (truthyName (findBy clips movingPatterns)).
  - apply findBy_names_a_clip.
  - destruct (JS.find _ clips) as [c |] eqn:E; [| exact Hidle].
    intros [= <-]. apply find_some in E as [Hin _]. eauto.
Qed.

Lemma find_hasName (clips : list AnimationClip) (n : string) :
  (exists c, In c clips /\ clipName c = n) ->
  exists c, JS.find (hasName n) clips = Some c /\ In c clips /\ clipName c = n.
Proof.
  intros (c & Hin & Hn).
  destruct (JS.find (hasName n) clips) as [c' |] eqn:E.
  - exists c'. apply find_some in E as [Hin' Hc'].
    repeat split; auto. now apply String.eqb_eq.
  - apply (find_none _ _ E) in Hin. unfold hasName in Hin.
    rewrite Hn, String.eqb_refl in Hin. discriminate.
Qed.

(** Playing a name that one of the clips carries starts that clip. *)
Lemma playStrippedByName_known (clips : list AnimationClip) (r : Refs) (n : string) :
  (exists c, In c clips /\ clipName c = n) ->
  exists c, In c clips /\ clipName c = n
            /\ playStrippedByName clips r n
               = setCurrentClipName n (call (startCalls c) r).
Proof.
  intros (c & E & Hin & Hn)%find_hasName.
  exists c. repeat split; auto.
  unfold playStrippedByName. rewrite E, Hn. reflexivity.
Qed.


(** The animation step in full, for refs as [setupModel] leaves them. *)
Lemma frameAnimation_spec (r : Refs) (m : AnimationMixer) (clips : list AnimationClip)
    (isMoving isRunning : bool) (delta : R) :
  mixerRef r = Some m ->
  strippedClipsRef r = Some clips ->
  playStrippedRef r = Some clips ->
  let wanted := want clips isMoving isRunning in
  if truthyName wanted && negb (sameName wanted (currentClipNameRef r))
  then exists c, In c clips /\ wanted = Some (clipName c)
         /\ frameAnimation r isMoving isRunning delta
            = mkRefs (Some (m ++ update delta :: startCalls c)) (currentActionRef r)
                     (Some clips) wanted (Some clips)
  else frameAnimation r isMoving isRunning delta
       = mkRefs (Some (m ++ [update delta])) (currentActionRef r)
                (Some clips) (currentClipNameRef r) (Some clips).
Proof.
  intros Hm Hc Hp wanted. unfold frameAnimation. rewrite Hm.
  cbn [call strippedClipsRef playStrippedRef currentClipNameRef]. rewrite Hc, Hp.
  fold wanted. destruct (truthyName wanted && _) eqn:E.
  - destruct wanted as [w |] eqn:Hw; [| discriminate].
    destruct (playStrippedByName_known clips
                (setCurrentClipName w (call [update delta] r)) w
                (want_names_a_clip clips isMoving isRunning w Hw))
      as (c & Hin & Hn & ->).
    exists c. repeat split; auto; [congruence |].
    unfold setCurrentClipName, call; cbn. rewrite Hm, Hc, Hp; cbn.
    now rewrite <- app_assoc.
  - unfold call; cbn. rewrite Hm, Hc, Hp. reflexivity.
Qed.





(** No tick ever fades an action out. *)
Lemma frameAnimation_never_fades_out (r : Refs) (m : AnimationMixer)
    (clips : list AnimationClip) (isMoving isRunning : bool) (delta : R) :
  mixerRef r = Some m ->
  strippedClipsRef r = Some clips ->
  playStrippedRef r = Some clips ->
  exists issued,
    mixerRef (frameAnimation r isMoving isRunning delta) = Some (m ++ issued)
    /\ forallb (fun c => negb (isFadeOut c)) issued = true.
Proof.
  intros Hm Hc Hp.
  pose proof (frameAnimation_spec r m clips isMoving isRunning delta Hm Hc Hp) as H.
  cbv zeta in H. destruct (truthyName _ && _).
  - destruct H as (c & _ & _ & ->). eexists; split; reflexivity.
  - rewrite H. eexists; split; reflexivity.
Qed.

End AnimationProperties.

Section AnimationScenarios.

Import THREE Animation Samples.
Local Open Scope R_scope.



(** C5, evaluated: while "Idle" plays, the tick on which the avatar
    starts to walk advances the mixer and starts "Walk" (reset, fade in
    over 0.2 s, endless loop, play), and issues no fade-out for "Idle";
    [playAnimation], called for the same switch, first fades the current
    action out over 0.2 s. *)
Theorem selector_switch_omits_fadeOut :
  let r := frameAnimation refsPlayingIdle true false 0.016 in
  currentClipNameRef refsPlayingIdle = Some "Idle"%string
  /\ currentClipNameRef r = Some "Walk"%string
  /\ mixerRef r
     = Some (startCalls idleClip
             ++ [update 0.016; clipAction walkStripped; reset walkStripped;
                 fadeIn walkStripped 0.2;
                 setLoop walkStripped LoopRepeat Infinity; play walkStripped])
  /\ (forall seconds, ~ In (fadeOut idleClip seconds)
                        (match mixerRef r with Some m => m | None => [] end))
  /\ mixerRef (fst (playAnimation (Some [idleClip; walkStripped])
                      (setCurrentAction idleClip refsPlayingIdle) "Walk"))
     = Some (startCalls idleClip
             ++ [fadeOut idleClip 0.2; clipAction walkStripped; reset walkStripped;
                 fadeIn walkStripped 0.2;
                 setLoop walkStripped LoopRepeat Infinity; play walkStripped]).
Proof.
  cbv zeta. repeat split.
  intros seconds. cbn. intros H.
  repeat (destruct H as [H | H]; [discriminate H |]). exact H.
Qed.

End AnimationScenarios.

(** ** Instance Guard *)

Section GuardProperties.

Import THREE AvatarSystem.
Local Open Scope string_scope.

Variable setFromObject : Object3D -> Box3.

Lemma componentId_truthy (i : Instance) : JS.truthy (componentId i) = true.
Proof. reflexivity. Qed.

Lemma globalKey_inj (a b : Avatar) : globalKey a = globalKey b -> name a = name b.
Proof. unfold globalKey. cbn. now intros [= H]. Qed.


Lemma isAt_true (w : gmap string string) (k v : string) :
  isAt w k v = true <-> w !! k = Some v.
Proof.
  unfold isAt. destruct (w !! k) as [u |]; split; try discriminate.
  - now intros ->%String.eqb_eq.
  - intros [= ->]. apply String.eqb_refl.
Qed.

(** The guard on a free slot: the caller is registered. *)
Lemma acquire_free (w : gmap string string) (i : Instance) :
  truthyAt w (globalKey (avatar i)) = false ->
  acquire w i = (<[globalKey (avatar i) := componentId i]> w, true).
Proof. intros H. unfold acquire. now rewrite H. Qed.

(** The guard for the registered instance itself: nothing changes. *)
Lemma acquire_own (w : gmap string string) (i : Instance) :
  w !! globalKey (avatar i) = Some (componentId i) ->
  acquire w i = (w, true).
Proof.
  intros H. unfold acquire.
  assert (Ht : truthyAt w (globalKey (avatar i)) = true)
    by (unfold truthyAt; rewrite H; apply componentId_truthy).
  rewrite Ht, (proj2 (isAt_true _ _ _) H). reflexivity.
Qed.


Lemma setupModel_window (w : gmap string string) (o : Owner) (scale : R) (k : string) :
  k <> "__currentSetup" ->
  (setupModel setFromObject w o scale).1.1 !! k = w !! k.
Proof.
  intros Hk. unfold setupModel.
  destruct (isAt w "__currentSetup" _); [reflexivity |].
  destruct (groupRef o); [| reflexivity].
  destruct (model (avatar (instance o))); [| reflexivity].
  destruct (animations (avatar (instance o))) as [[| c cs] |]; cbn;
    rewrite lookup_delete_ne, lookup_insert_ne; auto.
Qed.

(** After a setup that goes through for an avatar with clips, the
    animation refs are as the selector expects them: a new mixer, and the
    stripped clips both in [strippedClipsRef] and under [playStrippedRef]. *)
Lemma setupModel_refs (w : gmap string string) (o : Owner) (scale : R)
    (group : list Object3D) (m : Object3D) (clip : AnimationClip)
    (clips : list AnimationClip) :
  isAt w "__currentSetup" ("setup_" ++ name (avatar (instance o))) = false ->
  groupRef o = Some group ->
  model (avatar (instance o)) = Some m ->
  animations (avatar (instance o)) = Some (clip :: clips) ->
  let r := refs (setupModel setFromObject w o scale).1.2 in
  Animation.mixerRef r = Some []
  /\ Animation.strippedClipsRef r
     = Some (Clips.getRootMotionStrippedClips (Some (clip :: clips)))
  /\ Animation.playStrippedRef r = Animation.strippedClipsRef r.
Proof.
  intros Hfree Hgroup Hmodel Hclips. unfold setupModel.
  rewrite Hfree, Hgroup, Hmodel, Hclips. cbn. auto.
Qed.













End GuardProperties.

Section GuardScenarios.

Import THREE AvatarSystem Samples.


End GuardScenarios.

(** * Further properties *)

(** ** Movement Integrator: scaling, composition, facing *)

Section MovementFurther.

Import Movement.
Local Open Scope R_scope.

Variable baseSpeed : R.

(** The move vector is the unit vector of the held directions times
    [frameSpeed]. *)
Lemma directionsLoop_units (keys : list string) (run : bool) (dt rot0 : R) :
  let l := directionsLoop baseSpeed keys run dt rot0 in
  moveX l = unitX keys * frameSpeed baseSpeed run dt
  /\ moveZ l = unitZ keys * frameSpeed baseSpeed run dt.
Proof.
  destruct (directionsLoop_spec baseSpeed keys run dt rot0) as (EX & EZ & _).
  cbv zeta. rewrite EX, EZ. unfold unitX, unitZ.
  destruct (pressed keys left), (pressed keys right),
           (pressed keys forward), (pressed keys backward); split; lra.
Qed.

(** The yaw the loop leaves: that of the last held direction in the order
    of [MOVEMENT_KEYS], the previous yaw when none is held. *)
Lemma directionsLoop_newRotY (keys : list string) (run : bool) (dt rot0 : R) :
  newRotY (directionsLoop baseSpeed keys run dt rot0)
  = if pressed keys right then - PI / 2
    else if pressed keys left then PI / 2
    else if pressed keys backward then PI
    else if pressed keys forward then 0
    else rot0.
Proof.
  unfold directionsLoop, MOVEMENT_KEYS, pressed; cbn [fold_left iteration].
  destruct (JS.some (has keys) ["KeyW"; "ArrowUp"]%string),
           (JS.some (has keys) ["KeyS"; "ArrowDown"]%string),
           (JS.some (has keys) ["KeyA"; "ArrowLeft"]%string),
           (JS.some (has keys) ["KeyD"; "ArrowRight"]%string); reflexivity.
Qed.

Lemma hypot_scaled (p q f : R) :
  hypot (p * f) (q * f) = sqrt (p * p + q * q) * Rabs f.
Proof.
  unfold hypot.
  replace (p * f * (p * f) + q * f * (q * f)) with ((p * p + q * q) * Rsqr f)
    by (unfold Rsqr; ring).
  rewrite sqrt_mult by (try apply Rle_0_sqr; nra).
  now rewrite sqrt_Rsqr_abs.
Qed.

Lemma frameSpeed_run (dt : R) :
  frameSpeed baseSpeed true dt = 1.8 * frameSpeed baseSpeed false dt.
Proof. unfold frameSpeed, runMultiplier. lra. Qed.

Lemma frameSpeed_scale (run : bool) (c dt : R) :
  frameSpeed baseSpeed run (c * dt) = c * frameSpeed baseSpeed run dt.
Proof. unfold frameSpeed. ring. Qed.

Lemma frameSpeed_plus (run : bool) (dt1 dt2 : R) :
  frameSpeed baseSpeed run (dt1 + dt2)
  = frameSpeed baseSpeed run dt1 + frameSpeed baseSpeed run dt2.
Proof. unfold frameSpeed. ring. Qed.

Lemma pressed_units (k1 k2 : list string) :
  (forall d, pressed k1 d = pressed k2 d) -> unitX k1 = unitX k2 /\ unitZ k1 = unitZ k2.
Proof. intros H. unfold unitX, unitZ. now rewrite !H. Qed.

Lemma velocity_units (h : Hook) (arg : option R) :
  let fs := frameSpeed baseSpeed (runPressed (keysPressed h)) (deltaTimeOf arg) in
  let v := velocity (returnState (updateMovement baseSpeed h arg)) in
  x v = unitX (keysPressed h) * fs
  /\ z v = unitZ (keysPressed h) * fs
  /\ speed v = sqrt (unitX (keysPressed h) * unitX (keysPressed h)
                     + unitZ (keysPressed h) * unitZ (keysPressed h)) * Rabs fs.
Proof.
  cbv zeta. rewrite returnState_velocity. cbn [x z speed].
  destruct (directionsLoop_units (keysPressed h) (runPressed (keysPressed h))
              (deltaTimeOf arg) (snd (fst (currentRotation h)))) as [EX EZ].
  rewrite EX, EZ, hypot_scaled. auto.
Qed.

(** Holding a run key multiplies the velocity, its speed and the
    displacement of one update by exactly 1.8, for the same held
    directions and deltaTime. *)
Theorem run_key_scales_motion (hr hw : Hook) (arg : option R) :
  (forall d, pressed (keysPressed hr) d = pressed (keysPressed hw) d) ->
  runPressed (keysPressed hr) = true ->
  runPressed (keysPressed hw) = false ->
  let vr := velocity (returnState (updateMovement baseSpeed hr arg)) in
  let vw := velocity (returnState (updateMovement baseSpeed hw arg)) in
  x vr = 1.8 * x vw /\ z vr = 1.8 * z vw /\ speed vr = 1.8 * speed vw.
Proof.
  intros Hd Hr Hw vr vw; subst vr vw.
  destruct (velocity_units hr arg) as (X1 & Z1 & S1).
  destruct (velocity_units hw arg) as (X2 & Z2 & S2).
  destruct (pressed_units _ _ Hd) as [UX UZ].
  rewrite X1, Z1, S1, X2, Z2, S2, Hr, Hw, UX, UZ, frameSpeed_run.
  rewrite Rabs_mult, (Rabs_pos_eq 1.8) by lra.
  repeat split; ring.
Qed.

(** In exact arithmetic (numbers read as reals, without the rounding of
    doubles), the velocity of one update is proportional to deltaTime:
    scaling deltaTime by [c] scales both velocity components by [c] and
    the speed by [|c|]. *)
Theorem velocity_linear_in_deltaTime (h : Hook) (c dt : R) :
  let v1 := velocity (returnState (updateMovement baseSpeed h (Some dt))) in
  let vc := velocity (returnState (updateMovement baseSpeed h (Some (c * dt)))) in
  x vc = c * x v1 /\ z vc = c * z v1 /\ speed vc = Rabs c * speed v1.
Proof.
  cbv zeta.
  destruct (velocity_units h (Some dt)) as (X1 & Z1 & S1).
  destruct (velocity_units h (Some (c * dt))) as (X2 & Z2 & S2).
  rewrite X1, Z1, S1, X2, Z2, S2. cbn [deltaTimeOf].
  rewrite frameSpeed_scale, Rabs_mult. repeat split; ring.
Qed.

Lemma moving_units (keys : list string) (run : bool) (dt rot0 : R) :
  moving (directionsLoop baseSpeed keys run dt rot0)
  = pressed keys forward || pressed keys backward || pressed keys left
    || pressed keys right.
Proof. apply (directionsLoop_spec baseSpeed keys run dt rot0). Qed.

(** The refs after a call: untouched without a held direction, and
    otherwise the returned position and rotation. *)
Lemma hook_after_update (h : Hook) (arg : option R) :
  let o := updateMovement baseSpeed h arg in
  keysPressed (hook' o) = keysPressed h
  /\ currentPosition (hook' o) = position (returnState o)
  /\ currentRotation (hook' o) = rotation (returnState o).
Proof.
  cbn -[directionsLoop Rlt_dec].
  destruct (moving _); [| auto].
  destruct (currentPosition h) as [[px py] pz]; cbn; auto.
Qed.

(** Frame-rate independence in exact arithmetic (numbers read as reals,
    without the rounding of doubles): while the same keys are held, two
    updates in a row with deltaTimes [dt1] and [dt2] bring the position
    to the same place as a single update with deltaTime [dt1 + dt2]. *)
Theorem two_updates_equal_one (h : Hook) (dt1 dt2 : R) :
  let o1 := updateMovement baseSpeed h (Some dt1) in
  let o2 := updateMovement baseSpeed (hook' o1) (Some dt2) in
  let o := updateMovement baseSpeed h (Some (dt1 + dt2)) in
  position (returnState o2) = position (returnState o)
  /\ currentPosition (hook' o2) = currentPosition (hook' o).
Proof.
  intros o1 o2 o.
  destruct (hook_after_update h (Some dt1)) as (K1 & P1 & _). fold o1 in K1, P1.
  destruct (hook_after_update (hook' o1) (Some dt2)) as (_ & P2 & _). fold o2 in P2.
  destruct (hook_after_update h (Some (dt1 + dt2))) as (_ & P & _). fold o in P.
  rewrite P2, P. cut (position (returnState o2) = position (returnState o)); [auto |].
  subst o2 o. rewrite !returnState_position, K1, P1. subst o1.
  rewrite returnState_position, !moving_units.
  destruct (directionsLoop_units (keysPressed h) (runPressed (keysPressed h))
              (deltaTimeOf (Some dt1)) (snd (fst (currentRotation h)))) as [X1 Z1].
  destruct (directionsLoop_units (keysPressed h) (runPressed (keysPressed h))
              (deltaTimeOf (Some dt2))
              (snd (fst (currentRotation (hook' (updateMovement baseSpeed h (Some dt1)))))))
    as [X2 Z2].
  destruct (directionsLoop_units (keysPressed h) (runPressed (keysPressed h))
              (deltaTimeOf (Some (dt1 + dt2))) (snd (fst (currentRotation h)))) as [X Z].
  rewrite X1, Z1, X2, Z2, X, Z. cbn [deltaTimeOf]. rewrite frameSpeed_plus.
  destruct (pressed (keysPressed h) forward || pressed (keysPressed h) backward
            || pressed (keysPressed h) left || pressed (keysPressed h) right);
    [| reflexivity].
  cbn [fst snd]. f_equal; [f_equal |]; ring.
Qed.

(** Without a held direction an update moves nothing: the refs stay as
    they were, the returned state carries the stored position and
    rotation with [isMoving = false] and a zero velocity, and
    [onStateChange] is called only if no key at all is held (a run key
    alone is passed over in silence). *)
Theorem update_without_direction (h : Hook) (arg : option R) :
  heldDirections (keysPressed h) = [] ->
  let o := updateMovement baseSpeed h arg in
  hook' o = h
  /\ returnState o
     = mkMovementState (currentPosition h) (currentRotation h) false
         (runPressed (keysPressed h)) (mkVelocity 0 0 0) (keysPressed h)
  /\ notified o = match keysPressed h with
                  | [] => Some (returnState o)
                  | _ :: _ => None
                  end.
Proof.
  intros Hnone o.
  assert (Hflags : pressed (keysPressed h) forward = false
                   /\ pressed (keysPressed h) backward = false
                   /\ pressed (keysPressed h) left = false
                   /\ pressed (keysPressed h) right = false).
  { rewrite heldDirections_flags in Hnone.
    destruct (pressed (keysPressed h) forward), (pressed (keysPressed h) backward),
             (pressed (keysPressed h) left), (pressed (keysPressed h) right);
      try discriminate Hnone; auto. }
  destruct Hflags as (F & B & L & Rt).
  pose proof (moving_units (keysPressed h) (runPressed (keysPressed h)) (deltaTimeOf arg)
                (snd (fst (currentRotation h)))) as Hm.
  rewrite F, B, L, Rt in Hm. cbn [orb] in Hm.
  destruct (directionsLoop_units (keysPressed h) (runPressed (keysPressed h))
              (deltaTimeOf arg) (snd (fst (currentRotation h)))) as [EX EZ].
  unfold unitX, unitZ in EX, EZ. rewrite L, Rt in EX. rewrite F, B in EZ.
  assert (X0 : moveX (directionsLoop baseSpeed (keysPressed h)
                 (runPressed (keysPressed h)) (deltaTimeOf arg)
                 (snd (fst (currentRotation h)))) = 0) by (rewrite EX; ring).
  assert (Z0 : moveZ (directionsLoop baseSpeed (keysPressed h)
                 (runPressed (keysPressed h)) (deltaTimeOf arg)
                 (snd (fst (currentRotation h)))) = 0) by (rewrite EZ; ring).
  assert (H0 : hypot 0 0 = 0).
  { unfold hypot. replace (0 * 0 + 0 * 0) with 0 by ring. apply sqrt_0. }
  subst o. unfold updateMovement. fold (runPressed (keysPressed h)).
  rewrite Hm, X0, Z0, H0. cbn [hook' returnState notified orb].
  repeat split. destruct (keysPressed h); reflexivity.
Qed.

(** The speed of one update is 0, [|frameSpeed|] or
    [sqrt 2 * |frameSpeed|], whatever keys are held; it never exceeds
    [sqrt 2 * |frameSpeed|]. *)
Theorem speed_takes_three_values (h : Hook) (arg : option R) :
  let fs := frameSpeed baseSpeed (runPressed (keysPressed h)) (deltaTimeOf arg) in
  let s := speed (velocity (returnState (updateMovement baseSpeed h arg))) in
  (s = 0 \/ s = Rabs fs \/ s = sqrt 2 * Rabs fs)
  /\ 0 <= s <= sqrt 2 * Rabs fs.
Proof.
  cbv zeta. destruct (velocity_units h arg) as (_ & _ & ->).
  set (fs := frameSpeed _ _ _).
  pose proof (Rabs_pos fs) as Hfs. pose proof sqrt2_bounds as H2.
  unfold unitX, unitZ.
  destruct (pressed (keysPressed h) left), (pressed (keysPressed h) right),
           (pressed (keysPressed h) forward), (pressed (keysPressed h) backward);
    match goal with
    | |- context [sqrt ?e] =>
        first [ replace e with 0 by ring; rewrite sqrt_0
              | replace e with 1 by ring; rewrite sqrt_1
              | replace e with 2 by ring ]
    end;
    (split; [ first [ left; ring | right; left; ring | right; right; reflexivity ] | nra ]).
Qed.

Lemma atan2_right (y x : R) : 0 < x -> atan2 y x = atan (y / x).
Proof. intros H. unfold atan2. destruct (Rlt_dec 0 x); [reflexivity | contradiction]. Qed.

Lemma atan2_left_up (y x : R) : x < 0 -> 0 <= y -> atan2 y x = atan (y / x) + PI.
Proof.
  intros Hx Hy. unfold atan2.
  destruct (Rlt_dec 0 x); [lra |].
  destruct (Rlt_dec x 0); [| contradiction].
  destruct (Rlt_dec y 0); [lra | reflexivity].
Qed.

Lemma atan2_left_down (y x : R) : x < 0 -> y < 0 -> atan2 y x = atan (y / x) - PI.
Proof.
  intros Hx Hy. unfold atan2.
  destruct (Rlt_dec 0 x); [lra |].
  destruct (Rlt_dec x 0); [| contradiction].
  destruct (Rlt_dec y 0); [reflexivity | contradiction].
Qed.

Lemma atan_minus_1 : atan (- 1) = - (PI / 4).
Proof.
  assert (E : - 1 = Ropp 1) by lra.
  rewrite E, atan_opp, atan_1. reflexivity.
Qed.

(** The yaw of a moving update whose move vector is longer than the
    threshold. *)
Lemma yaw_of_move_vector (h : Hook) (arg : option R) :
  let fs := frameSpeed baseSpeed (runPressed (keysPressed h)) (deltaTimeOf arg) in
  let ux := unitX (keysPressed h) in
  let uz := unitZ (keysPressed h) in
  1e-6 < fs ->
  1 <= ux * ux + uz * uz ->
  snd (fst (rotation (returnState (updateMovement baseSpeed h arg))))
  = atan2 (- (ux * fs)) (- (uz * fs)).
Proof.
  intros fs ux uz Hfs Hu.
  rewrite returnState_rotation, moving_units.
  destruct (directionsLoop_units (keysPressed h) (runPressed (keysPressed h))
              (deltaTimeOf arg) (snd (fst (currentRotation h)))) as [EX EZ].
  rewrite EX, EZ. fold fs ux uz.
  assert (Hmoving : pressed (keysPressed h) forward || pressed (keysPressed h) backward
                    || pressed (keysPressed h) left || pressed (keysPressed h) right = true).
  { subst ux uz. unfold unitX, unitZ in Hu.
    destruct (pressed (keysPressed h) forward), (pressed (keysPressed h) backward),
             (pressed (keysPressed h) left), (pressed (keysPressed h) right);
      try reflexivity; exfalso; lra. }
  rewrite Hmoving. cbn [fst snd].
  destruct (Rlt_dec 1e-6 (hypot (ux * fs) (uz * fs))) as [_ | Hshort]; [reflexivity |].
  exfalso. apply Hshort. rewrite hypot_scaled, Rabs_pos_eq by lra.
  assert (1 <= sqrt (ux * ux + uz * uz)).
  { rewrite <- sqrt_1. apply sqrt_le_1; lra. }
  nra.
Qed.

(** Diagonals face the move vector: with [frameSpeed] above the
    threshold [1e-6], forward+left turns the avatar to yaw [PI/4],
    forward+right to [-PI/4], backward+left to [3*PI/4] and
    backward+right to [-3*PI/4]. *)
Theorem diagonal_input_faces_diagonal (h : Hook) (arg : option R) :
  1e-6 < frameSpeed baseSpeed (runPressed (keysPressed h)) (deltaTimeOf arg) ->
  let yaw := snd (fst (rotation (returnState (updateMovement baseSpeed h arg)))) in
  (heldDirections (keysPressed h) = [forward; left] -> yaw = PI / 4)
  /\ (heldDirections (keysPressed h) = [forward; right] -> yaw = - (PI / 4))
  /\ (heldDirections (keysPressed h) = [backward; left] -> yaw = 3 * (PI / 4))
  /\ (heldDirections (keysPressed h) = [backward; right] -> yaw = - (3 * (PI / 4))).
Proof.
  intros Hfs yaw; subst yaw.
  set (fs := frameSpeed _ _ _) in *.
  assert (Hyaw : forall ux uz, unitX (keysPressed h) = ux -> unitZ (keysPressed h) = uz ->
            1 <= ux * ux + uz * uz ->
            snd (fst (rotation (returnState (updateMovement baseSpeed h arg))))
            = atan2 (- (ux * fs)) (- (uz * fs))).
  { intros ux uz <- <- Hu. now apply yaw_of_move_vector. }
  split; [| split; [| split]]; intros Hheld; rewrite heldDirections_flags in Hheld;
    destruct (pressed (keysPressed h) forward) eqn:F,
             (pressed (keysPressed h) backward) eqn:B,
             (pressed (keysPressed h) left) eqn:L,
             (pressed (keysPressed h) right) eqn:Rt; try discriminate Hheld.
  - rewrite (Hyaw (-1) (-1)); [| unfold unitX; rewrite L, Rt; ring
                                | unfold unitZ; rewrite F, B; ring | lra].
    rewrite atan2_right by lra.
    replace (- (-1 * fs) / - (-1 * fs)) with 1 by (field; lra). apply atan_1.
  - rewrite (Hyaw 1 (-1)); [| unfold unitX; rewrite L, Rt; ring
                             | unfold unitZ; rewrite F, B; ring | lra].
    rewrite atan2_right by lra.
    replace (- (1 * fs) / - (-1 * fs)) with (- 1) by (field; lra). apply atan_minus_1.
  - rewrite (Hyaw (-1) 1); [| unfold unitX; rewrite L, Rt; ring
                             | unfold unitZ; rewrite F, B; ring | lra].
    rewrite atan2_left_up by lra.
    replace (- (-1 * fs) / - (1 * fs)) with (- 1) by (field; lra).
    rewrite atan_minus_1. lra.
  - rewrite (Hyaw 1 1); [| unfold unitX; rewrite L, Rt; ring
                          | unfold unitZ; rewrite F, B; ring | lra].
    rewrite atan2_left_down by lra.
    replace (- (1 * fs) / - (1 * fs)) with 1 by (field; lra).
    rewrite atan_1. lra.
Qed.

(** When every held direction is cancelled by its opposite the move
    vector vanishes and the facing falls back on the yaw the loop set
    last, in the order forward, backward, left, right: [-PI/2] if left
    and right are held, [PI] if only forward and backward are. *)
Theorem cancelled_input_faces_last_direction (h : Hook) (arg : option R)
    (d : MovementDirection) :
  pressed (keysPressed h) d = true ->
  pressed (keysPressed h) forward = pressed (keysPressed h) backward ->
  pressed (keysPressed h) left = pressed (keysPressed h) right ->
  rotation (returnState (updateMovement baseSpeed h arg))
  = (0, (if pressed (keysPressed h) right then - PI / 2 else PI), 0).
Proof.
  intros Hd HZ HX.
  rewrite returnState_rotation, moving_units, directionsLoop_newRotY.
  destruct (directionsLoop_units (keysPressed h) (runPressed (keysPressed h))
              (deltaTimeOf arg) (snd (fst (currentRotation h)))) as [EX EZ].
  rewrite EX, EZ, hypot_scaled.
  assert (UX : unitX (keysPressed h) = 0)
    by (unfold unitX; rewrite HX; destruct (pressed _ right); ring).
  assert (UZ : unitZ (keysPressed h) = 0)
    by (unfold unitZ; rewrite HZ; destruct (pressed _ backward); ring).
  rewrite UX, UZ.
  replace (0 * 0 + 0 * 0) with 0 by ring. rewrite sqrt_0, Rmult_0_l.
  destruct (Rlt_dec 1e-6 0) as [Hlt | _]; [lra |].
  rewrite HZ, HX.
  destruct (pressed (keysPressed h) backward) eqn:B,
           (pressed (keysPressed h) right) eqn:Rt; cbn; try reflexivity.
  exfalso. destruct d; rewrite ?HZ, ?HX, ?B, ?Rt in Hd; discriminate.
Qed.

End MovementFurther.

(** ** Keyboard handlers *)

Section KeyboardFurther.

Import Movement.
Local Open Scope R_scope.

Lemma has_In (keys : list string) (k : string) : has keys k = true <-> In k keys.
Proof.
  unfold has. rewrite existsb_exists. split.
  - intros (y & Hin & ->%String.eqb_eq). exact Hin.
  - intros Hin. exists k. split; [exact Hin | apply String.eqb_refl].
Qed.

Lemma delete_In (keys : list string) (code k : string) :
  In k (delete keys code) <-> In k keys /\ k <> code.
Proof.
  unfold delete. rewrite filter_In, negb_true_iff, String.eqb_neq.
  intuition congruence.
Qed.

Lemma delete_absent (keys : list string) (code : string) :
  ~ In code keys -> delete keys code = keys.
Proof.
  unfold delete. induction keys as [| k keys IH]; cbn; [reflexivity |].
  intros Hn. destruct (String.eqb code k) eqn:E; cbn.
  - apply String.eqb_eq in E. exfalso. apply Hn. now left.
  - f_equal. apply IH. tauto.
Qed.

(** One keyboard event keeps the pressed keys duplicate-free and among
    the tracked codes, and does not touch position or rotation. *)
Lemma handleKey_keeps (h : Hook) (e : KeyEvent) :
  NoDup (keysPressed h) -> incl (keysPressed h) allKeys ->
  NoDup (keysPressed (handleKey h e))
  /\ incl (keysPressed (handleKey h e)) allKeys
  /\ currentPosition (handleKey h e) = currentPosition h
  /\ currentRotation (handleKey h e) = currentRotation h.
Proof.
  intros Hnd Hincl. destruct e as [code | code]; cbn [handleKey].
  - unfold handleKeyDown.
    destruct (existsb (String.eqb code) allKeys) eqn:Hknown; [| auto].
    destruct (has (keysPressed h) code) eqn:Hheld; cbn [negb]; [auto |].
    cbn [keysPressed currentPosition currentRotation]. unfold add. rewrite Hheld.
    repeat split.
    + apply NoDup_app; repeat split; auto.
      * constructor; [intros [] | constructor].
      * intros k Hin [<- | []]. apply has_In in Hin. congruence.
    + intros k [Hin | [<- | []]]%in_app_or; [now apply Hincl |].
      apply existsb_exists in Hknown as (y & Hy & ->%String.eqb_eq). exact Hy.
  - unfold handleKeyUp.
    destruct (existsb (String.eqb code) allKeys); [| auto].
    destruct (has (keysPressed h) code); [| auto].
    cbn [keysPressed currentPosition currentRotation]. repeat split.
    + now apply NoDup_filter.
    + intros k [Hin _]%delete_In. now apply Hincl.
Qed.

(** Whatever keys go down and up, in whatever order, the pressed-key set
    stays free of duplicates and within the ten tracked codes (unknown
    codes are ignored), and the handlers never move or turn the avatar. *)
Theorem keyboard_events_keep_key_set (h : Hook) (events : list KeyEvent) :
  NoDup (keysPressed h) ->
  incl (keysPressed h) allKeys ->
  let h' := handleKeys h events in
  NoDup (keysPressed h')
  /\ incl (keysPressed h') allKeys
  /\ (List.length (keysPressed h') <= 10)%nat
  /\ currentPosition h' = currentPosition h
  /\ currentRotation h' = currentRotation h.
Proof.
  intros Hnd Hincl h'; subst h'. unfold handleKeys.
  revert h Hnd Hincl. induction events as [| e events IH]; intros h Hnd Hincl;
    cbn [fold_left].
  - repeat split; auto.
    change 10%nat with (List.length allKeys). now apply NoDup_incl_length.
  - destruct (handleKey_keeps h e Hnd Hincl) as (Hnd' & Hincl' & Hp & Hr).
    destruct (IH (handleKey h e) Hnd' Hincl') as (H1 & H2 & H3 & H4 & H5).
    repeat split; auto; congruence.
Qed.

(** Pressing a tracked key that is not held and releasing it again
    restores the hook exactly; while it is down the key is held, and once
    it is up it is not. *)
Theorem key_down_then_up_restores (h : Hook) (code : string) :
  In code allKeys ->
  ~ In code (keysPressed h) ->
  has (keysPressed (handleKeyDown h code)) code = true
  /\ handleKeyUp (handleKeyDown h code) code = h.
Proof.
  intros Hknown Hfree.
  assert (Hk : existsb (String.eqb code) allKeys = true).
  { apply existsb_exists. exists code. split; [exact Hknown | apply String.eqb_refl]. }
  assert (Hh : has (keysPressed h) code = false).
  { apply not_true_is_false. now rewrite has_In. }
  unfold handleKeyDown. rewrite Hk, Hh. cbn [negb keysPressed]. split.
  - apply has_add.
  - unfold handleKeyUp. rewrite Hk. cbn [keysPressed currentPosition currentRotation].
    rewrite has_add. unfold add. rewrite Hh.
    unfold delete. rewrite filter_app. cbn [filter]. rewrite String.eqb_refl. cbn [negb].
    rewrite app_nil_r. fold (delete (keysPressed h) code).
    rewrite (delete_absent _ _ Hfree). now destruct h.
Qed.

End KeyboardFurther.

Section SnapshotFurther.

Import Movement.
Local Open Scope R_scope.

Variable baseSpeed : R.

Lemma pressed_needs_a_key (keys : list string) (d : MovementDirection) :
  pressed keys d = true -> keys <> [].
Proof. intros H ->. destruct d; discriminate H. Qed.

(** The snapshot [currentState] and [updateMovement] do not mean the
    same by [isMoving]: the snapshot says moving as soon as any tracked
    key is held, so it is true whenever the update's flag is, and with
    only run keys held the snapshot reports movement where the update
    reports none. *)
Theorem snapshot_counts_run_keys_as_moving (h : Hook) (arg : option R) :
  (isMoving (returnState (updateMovement baseSpeed h arg)) = true ->
   isMoving (currentState h) = true)
  /\ (keysPressed h <> [] -> heldDirections (keysPressed h) = [] ->
      isMoving (currentState h) = true
      /\ isMoving (returnState (updateMovement baseSpeed h arg)) = false).
Proof.
  assert (Hsnap : keysPressed h <> [] -> isMoving (currentState h) = true).
  { unfold currentState; cbn [isMoving]. destruct (keysPressed h); [congruence | reflexivity]. }
  split.
  - rewrite returnState_isMoving. intros Hm. apply Hsnap.
    destruct (pressed (keysPressed h) forward) eqn:F;
      [now apply (pressed_needs_a_key _ forward) |].
    destruct (pressed (keysPressed h) backward) eqn:B;
      [now apply (pressed_needs_a_key _ backward) |].
    destruct (pressed (keysPressed h) left) eqn:L;
      [now apply (pressed_needs_a_key _ left) |].
    destruct (pressed (keysPressed h) right) eqn:Rt;
      [now apply (pressed_needs_a_key _ right) | discriminate Hm].
  - intros Hkeys Hnone. split; [now apply Hsnap |].
    rewrite returnState_isMoving. rewrite heldDirections_flags in Hnone.
    destruct (pressed (keysPressed h) forward), (pressed (keysPressed h) backward),
             (pressed (keysPressed h) left), (pressed (keysPressed h) right);
      try discriminate Hnone; reflexivity.
Qed.

End SnapshotFurther.

(** ** Model Normalizer and model setup *)

Section SetupFurther.

Import THREE Normalizer AvatarSystem.
Local Open Scope R_scope.

Variable setFromObject : Object3D -> Box3.


Lemma setupModel_returns_container (w : gmap string string) (o : Owner)
    (scale : R) (group : list Object3D) (m : Object3D) :
  isAt w "__currentSetup" ("setup_" ++ name (avatar (instance o))) = false ->
  groupRef o = Some group ->
  model (avatar (instance o)) = Some m ->
  exists container,
    (setupModel setFromObject w o scale).2 = Some container
    /\ containerRef (setupModel setFromObject w o scale).1.2 = Some container
    /\ groupRef (setupModel setFromObject w o scale).1.2 = Some [container]
    /\ instance (setupModel setFromObject w o scale).1.2 = instance o.
Proof.
  intros Hfree Hgroup Hmodel. unfold setupModel. rewrite Hfree, Hgroup, Hmodel.
  destruct (animations (avatar (instance o))) as [[| clip clips] |];
    eexists; repeat split.
Qed.


Lemma preferredOnLoad_In (clips : list AnimationClip) (c : AnimationClip) :
  preferredOnLoad clips = Some c -> In c clips.
Proof.
  unfold preferredOnLoad, JS.find.
  repeat match goal with
         | |- context [match find ?f clips with _ => _ end] =>
             let E := fresh "E" in destruct (find f clips) eqn:E
         end;
    intros H; try (now apply head_In);
    injection H as H; subst;
    match goal with
    | E : find _ _ = Some ?a |- In ?a _ => apply find_some in E; tauto
    end.
Qed.

Lemma preferredOnLoad_some (clip : AnimationClip) (clips : list AnimationClip) :
  exists c, preferredOnLoad (clip :: clips) = Some c.
Proof.
  unfold preferredOnLoad, JS.find.
  repeat match goal with
         | |- context [match find ?f (clip :: clips) with _ => _ end] =>
             destruct (find f (clip :: clips))
         end; eauto.
Qed.

Lemma stripped_names (clips : list AnimationClip) :
  map clipName (Clips.getRootMotionStrippedClips (Some clips)) = map clipName clips.
Proof.
  rewrite getRootMotionStrippedClips_map, map_map. reflexivity.
Qed.

Lemma stripped_without_position (clips : list AnimationClip) :
  Forall (fun s => Forall (fun t => Clips.isPosition t = false) (tracks s))
         (Clips.getRootMotionStrippedClips (Some clips)).
Proof.
  rewrite getRootMotionStrippedClips_map. apply Forall_forall.
  intros s (c & <- & _)%in_map_iff. rewrite strip_tracks.
  apply Forall_forall. intros t [_ Hn]%filter_In. now apply negb_true_iff.
Qed.

(** What a call of [setupModel] writes on [window].  A call that finds
    its own setup in progress writes nothing, the call counter included,
    and returns the stored container.  Every other call adds one to
    [__setupModelCallCount] (starting from 0 when it is not set), also
    when it then fails: without a group or without a model it changes
    nothing else and returns no container.  No string property other than
    [__currentSetup] is ever written, so the instance slots are as
    before, and a setup that goes through leaves [__currentSetup]
    deleted. *)
Theorem setupModel_failure_and_guard_key (callCount : option nat)
    (w : gmap string string) (o : Owner) (scale : R) :
  let setupKey := ("setup_" ++ name (avatar (instance o)))%string in
  let called := setupModelCall setFromObject callCount w o scale in
  (isAt w "__currentSetup" setupKey = true ->
     called = (callCount, (w, o, containerRef o)))
  /\ (isAt w "__currentSetup" setupKey = false ->
      called.1 = Some (S (match callCount with Some n => n | None => 0%nat end))
      /\ called.1 <> callCount
      /\ (groupRef o = None \/ model (avatar (instance o)) = None ->
          called.2 = (w, o, None))
      /\ (groupRef o <> None -> model (avatar (instance o)) <> None ->
          called.2.1.1 !! "__currentSetup"%string = None))
  /\ (forall k, k <> "__currentSetup"%string -> called.2.1.1 !! k = w !! k).
Proof.
  intros setupKey called. subst called setupKey. unfold setupModelCall.
  split; [| split].
  - intros Hbusy. rewrite Hbusy. unfold setupModel. rewrite Hbusy. reflexivity.
  - intros Hfree. rewrite Hfree. cbn [fst snd].
    split; [f_equal; lia |]. split; [| split].
    + destruct callCount as [n |]; [| discriminate].
      intros [= E]. lia.
    + unfold setupModel. rewrite Hfree.
      intros [Hg | Hm]; [now rewrite Hg |].
      rewrite Hm. now destruct (groupRef o).
    + intros Hg Hm. unfold setupModel. rewrite Hfree.
      destruct (groupRef o); [| congruence].
      destruct (model (avatar (instance o))); [| congruence].
      destruct (animations (avatar (instance o))) as [[| c cs] |]; cbn;
        apply lookup_delete_eq.
  - intros k Hk.
    destruct (isAt w "__currentSetup" _); cbn [fst snd]; now apply setupModel_window.
Qed.

(** A setup that goes through for an avatar with clips creates a mixer
    that has received no call yet and keeps, both in [strippedClipsRef]
    and under [playStrippedRef], one stripped clip per clip of the avatar,
    with the same names in the same order and without any position
    track; the autoplay timer it starts is for one of those names.
    Without clips the animation refs are left alone and no mixer is
    made. *)
Theorem setupModel_prepares_stripped_clips (w : gmap string string) (o : Owner)
    (scale : R) (group : list Object3D) (m : Object3D) :
  isAt w "__currentSetup" ("setup_" ++ name (avatar (instance o))) = false ->
  groupRef o = Some group ->
  model (avatar (instance o)) = Some m ->
  let o' := (setupModel setFromObject w o scale).1.2 in
  (forall clip clips, animations (avatar (instance o)) = Some (clip :: clips) ->
     exists stripped n,
       Animation.mixerRef (refs o') = Some []
       /\ Animation.strippedClipsRef (refs o') = Some stripped
       /\ Animation.playStrippedRef (refs o') = Some stripped
       /\ map clipName stripped = map clipName (clip :: clips)
       /\ Forall (fun s => Forall (fun t => Clips.isPosition t = false) (tracks s))
                 stripped
       /\ autoplay o' = Some n
       /\ In n (map clipName stripped))
  /\ (animations (avatar (instance o)) = None
      \/ animations (avatar (instance o)) = Some [] ->
      refs o' = refs o /\ autoplay o' = autoplay o).
Proof.
  intros Hfree Hgroup Hmodel o'; subst o'. split.
  - intros clip clips Hclips.
    unfold setupModel. rewrite Hfree, Hgroup, Hmodel, Hclips.
    cbn [fst snd refs autoplay Animation.mixerRef Animation.strippedClipsRef
         Animation.playStrippedRef].
    set (stripped := Clips.getRootMotionStrippedClips (Some (clip :: clips))).
    destruct (preferredOnLoad_some (Clips.stripClip clip) (map Clips.stripClip clips))
      as (c & Hc).
    change (Clips.stripClip clip :: map Clips.stripClip clips) with stripped in Hc.
    exists stripped, (clipName c). rewrite Hc. cbn [option_map].
    repeat split.
    + apply stripped_names.
    + apply stripped_without_position.
    + apply in_map, preferredOnLoad_In, Hc.
  - unfold setupModel. rewrite Hfree, Hgroup, Hmodel.
    intros [-> | ->]; split; reflexivity.
Qed.

(** When the autoplay timer of a set-up instance fires, it starts one
    stripped clip - resolve, reset, fade in over 0.2 s, loop without end,
    play - whose name is the preferred one, records that name as the
    current clip name and is spent. *)
Theorem autoplayTimer_starts_preferred_clip (o : Owner) (calls : Animation.AnimationMixer)
    (stripped : list AnimationClip) (preferred : AnimationClip) :
  Animation.mixerRef (refs o) = Some calls ->
  Animation.playStrippedRef (refs o) = Some stripped ->
  preferredOnLoad stripped = Some preferred ->
  autoplay o = Some (clipName preferred) ->
  exists c,
    In c stripped
    /\ clipName c = clipName preferred
    /\ Animation.mixerRef (refs (autoplayTimer o)) = Some (calls ++ Animation.startCalls c)
    /\ Animation.currentClipNameRef (refs (autoplayTimer o)) = Some (clipName preferred)
    /\ autoplay (autoplayTimer o) = None
    /\ instance (autoplayTimer o) = instance o.
Proof.
  intros Hm Hp Hpref Ha.
  destruct (playStrippedByName_known stripped (refs o) (clipName preferred))
    as (c & Hin & Hn & Hplay).
  { exists preferred. split; [now apply preferredOnLoad_In | reflexivity]. }
  exists c. unfold autoplayTimer. rewrite Ha, Hp. cbn [refs autoplay instance].
  rewrite Hplay. cbn. rewrite Hm. cbn. repeat split; auto.
Qed.

(** [onUpdate] sets the model up once: with a model present and no setup
    in progress, the first call attaches the group, runs the setup and
    raises [hasSetupRunRef]; from then on every call changes nothing.
    As long as the avatar has no model, a call does not even try. *)
Theorem onUpdate_sets_up_once (w : gmap string string) (r : Rendered)
    (self : list Object3D) (scale : R) :
  hasSetupRunRef r = false ->
  isAt w "__currentSetup" ("setup_" ++ name (avatar (instance (owner r)))) = false ->
  let w1 := (onUpdate setFromObject w r self scale).1 in
  let r1 := (onUpdate setFromObject w r self scale).2 in
  (model (avatar (instance (owner r))) = None ->
     w1 = w /\ hasSetupRunRef r1 = false /\ containerRef (owner r1) = containerRef (owner r))
  /\ (model (avatar (instance (owner r))) <> None ->
      hasSetupRunRef r1 = true
      /\ containerRef (owner r1) <> None
      /\ forall self' scale', onUpdate setFromObject w1 r1 self' scale' = (w1, r1)).
Proof.
  intros Hrun Hfree w1 r1; subst w1 r1. unfold onUpdate. rewrite Hrun.
  set (o := match groupRef (owner r) with
            | Some _ => owner r
            | None => _
            end).
  assert (Hi : instance o = instance (owner r))
    by (subst o; destruct (groupRef (owner r)); reflexivity).
  assert (Hg : exists g, groupRef o = Some g)
    by (subst o; destruct (groupRef (owner r)) eqn:E; cbn; eauto).
  assert (Hc : containerRef o = containerRef (owner r))
    by (subst o; destruct (groupRef (owner r)); reflexivity).
  rewrite Hi. split.
  - intros ->. cbn. auto.
  - intros Hm. destruct (model (avatar (instance (owner r)))) as [m |] eqn:Em;
      [| congruence].
    destruct Hg as (g & Hg).
    rewrite <- Hi in Hfree, Em.
    destruct (setupModel_returns_container w o scale g m Hfree Hg Em)
      as (container & Hres & Hcont & Hgrp & Hinst).
    destruct (setupModel setFromObject w o scale) as [[w' o'] res].
    cbn in Hres, Hcont, Hgrp, Hinst |- *. subst res. cbn.
    split; [reflexivity |]. split; [congruence |].
    intros self' scale'. rewrite Hgrp. reflexivity.
Qed.

End SetupFurther.

(** ** Animation Selector: which clip is wanted *)

Section SelectorFurther.

Import THREE Animation.
Local Open Scope R_scope.

Lemma findBy_none_without_clips (patterns : list RegExp) : findBy [] patterns = None.
Proof. induction patterns as [| p patterns IH]; cbn; auto. Qed.

Lemma includes_needs_text (word : string) (c : ascii) (rest : string) :
  includes "" (String c rest) = false.
Proof. reflexivity. Qed.

(** A name that contains one of the words of a pattern is not empty,
    as long as no word is. *)
Lemma test_words_truthy (words : list string) (s : string) :
  Forall (fun w => w <> ""%string) words ->
  test (Words words) s = true -> JS.truthy s = true.
Proof.
  intros Hwords Ht. destruct s as [| c s]; [| reflexivity].
  exfalso. cbn in Ht. unfold JS.some in Ht. apply existsb_exists in Ht as (w & Hin & Hw).
  rewrite Forall_forall in Hwords. specialize (Hwords w Hin).
  destruct w as [| c rest]; [congruence | discriminate Hw].
Qed.

(** [findBy] with a first pattern that hits returns the name of the
    first clip that pattern matches. *)
Lemma findBy_first_hit (clips : list AnimationClip) (p : RegExp) (patterns : list RegExp)
    (c : AnimationClip) :
  JS.find (fun c => test p (clipName c)) clips = Some c ->
  findBy clips (p :: patterns) = Some (clipName c).
Proof. intros H. cbn [findBy]. now rewrite H. Qed.

Lemma findBy_first_miss (clips : list AnimationClip) (p : RegExp) (patterns : list RegExp) :
  JS.find (fun c => test p (clipName c)) clips = None ->
  findBy clips (p :: patterns) = findBy clips patterns.
Proof. intros H. cbn [findBy]. now rewrite H. Qed.

(** The selector always resolves to a clip that exists: with clips to
    choose from, the wanted name is the name of one of them for every
    movement state, and it is absent only when there is no clip at all -
    in which case a tick only advances the mixer. *)
Theorem selector_resolves_to_existing_clip (clips : list AnimationClip)
    (isMoving isRunning : bool) :
  (clips = [] <-> want clips isMoving isRunning = None)
  /\ (forall n, want clips isMoving isRunning = Some n ->
        exists c, In c clips /\ clipName c = n)
  /\ (clips = [] -> forall r m delta,
        mixerRef r = Some m -> strippedClipsRef r = Some clips ->
        playStrippedRef r = Some clips ->
        frameAnimation r isMoving isRunning delta = call [update delta] r).
Proof.
  split; [| split].
  - split.
    + intros ->. unfold want. rewrite !findBy_none_without_clips.
      destruct isMoving; reflexivity.
    + destruct clips as [| c clips]; [reflexivity |]. intros Hnone. exfalso.
      revert Hnone. unfold want.
      assert (Hidle : forall o : option string,
                (if truthyName o then o else option_map clipName (List.head (c :: clips)))
                <> None).
      { intros [s |]; cbn; [destruct (JS.truthy s) |]; discriminate. }
      destruct isMoving; [| apply Hidle].
      match goal with
      | |- context [truthyName ?o] => destruct o as [s |]; cbn [truthyName]
      end.
      * destruct (JS.truthy s); [discriminate |].
        destruct (JS.find _ (c :: clips)); [discriminate | apply Hidle].
      * destruct (JS.find _ (c :: clips)); [discriminate | apply Hidle].
  - apply want_names_a_clip.
  - intros -> r m delta Hm Hc Hp.
    pose proof (frameAnimation_spec r m [] isMoving isRunning delta Hm Hc Hp) as H.
    cbv zeta in H.
    replace (want [] isMoving isRunning) with (@None string) in H
      by (unfold want; rewrite !findBy_none_without_clips; destruct isMoving; reflexivity).
    cbn [truthyName andb] in H. rewrite H. unfold call. rewrite Hm, Hc, Hp.
    destruct r; cbn in *. congruence.
Qed.

(** Locomotion preference: while moving and running, if some clip name
    contains "run" the first such clip is wanted; while moving without
    running, if no clip has an empty name and some clip name contains
    "walk", the first such clip is wanted - a run clip is not chosen for
    its name then. *)
Theorem selector_prefers_run_then_walk (clips : list AnimationClip) (c : AnimationClip) :
  (JS.find (fun c => test (Words ["run"%string]) (clipName c)) clips = Some c ->
   want clips true true = Some (clipName c))
  /\ (JS.find (fun c => test EmptyOnly (clipName c)) clips = None ->
      JS.find (fun c => test (Words ["walk"%string]) (clipName c)) clips = Some c ->
      want clips true false = Some (clipName c)).
Proof.
  split.
  - intros Hrun. unfold want.
    rewrite (findBy_first_hit clips _ _ c Hrun). cbn [truthyName].
    rewrite (test_words_truthy ["run"%string] (clipName c)); [reflexivity | |].
    + repeat constructor; discriminate.
    + now apply find_some in Hrun.
  - intros Hempty Hwalk. unfold want.
    rewrite (findBy_first_miss clips _ _ Hempty), (findBy_first_hit clips _ _ c Hwalk).
    cbn [truthyName].
    rewrite (test_words_truthy ["walk"%string] (clipName c)); [reflexivity | |].
    + repeat constructor; discriminate.
    + now apply find_some in Hwalk.
Qed.

(** Rest preference and fallback: while not moving, the first clip whose
    name contains "smok" is wanted; without one, the first whose name
    contains "idle"; and when no clip name contains "smok", "idle",
    "stand" or "tpose", the first clip of the set, whatever it is. *)
Theorem selector_rests_on_idle_or_first (clips : list AnimationClip) :
  (forall c, JS.find (fun c => test (Words ["smok"%string]) (clipName c)) clips = Some c ->
     want clips false false = Some (clipName c))
  /\ (forall c, JS.find (fun c => test (Words ["smok"%string]) (clipName c)) clips = None ->
        JS.find (fun c => test (Words ["idle"%string]) (clipName c)) clips = Some c ->
        want clips false false = Some (clipName c))
  /\ (forall isRunning,
        JS.find (fun c => test (Words ["smok"%string]) (clipName c)) clips = None ->
        JS.find (fun c => test (Words ["idle"%string]) (clipName c)) clips = None ->
        JS.find (fun c => test (Words ["stand"%string]) (clipName c)) clips = None ->
        JS.find (fun c => test (Words ["tpose"%string]) (clipName c)) clips = None ->
        want clips false isRunning = option_map clipName (List.head clips)).
Proof.
  split; [| split].
  - intros c Hsmok. unfold want.
    rewrite (findBy_first_hit clips _ _ c Hsmok). cbn [truthyName].
    rewrite (test_words_truthy ["smok"%string] (clipName c)); [reflexivity | |].
    + repeat constructor; discriminate.
    + now apply find_some in Hsmok.
  - intros c Hsmok Hidle. unfold want.
    rewrite (findBy_first_miss clips _ _ Hsmok), (findBy_first_hit clips _ _ c Hidle).
    cbn [truthyName].
    rewrite (test_words_truthy ["idle"%string] (clipName c)); [reflexivity | |].
    + repeat constructor; discriminate.
    + now apply find_some in Hidle.
  - intros isRunning H1 H2 H3 H4. unfold want.
    rewrite (findBy_first_miss clips _ _ H1), (findBy_first_miss clips _ _ H2),
      (findBy_first_miss clips _ _ H3), (findBy_first_miss clips _ _ H4).
    reflexivity.
Qed.

End SelectorFurther.

(** ** The two play helpers *)

Section PlayFurther.

Import THREE Animation.
Local Open Scope R_scope.

Lemma find_no_match {A : Type} (f : A -> bool) (l : list A) :
  (forall a, In a l -> f a = false) -> JS.find f l = None.
Proof.
  unfold JS.find. induction l as [| a l IH]; cbn; [reflexivity |].
  intros H. rewrite (H a) by now left. apply IH. intros b Hb. apply H. now right.
Qed.

(** Asked for a name no stripped clip carries, [playStrippedByName]
    starts the first clip of the set instead and records that clip's
    name, not the requested one, as current; with an empty set it does
    nothing. *)
Theorem playStrippedByName_falls_back_on_first (clips : list AnimationClip) (r : Refs)
    (name : string) :
  (forall c, In c clips -> clipName c <> name) ->
  playStrippedByName clips r name
  = match clips with
    | [] => r
    | first :: _ => setCurrentClipName (clipName first) (call (startCalls first) r)
    end.
Proof.
  intros Hunknown. unfold playStrippedByName.
  rewrite find_no_match; [now destruct clips |].
  intros c Hin. unfold hasName. apply String.eqb_neq. now apply Hunknown.
Qed.

(** [playAnimation] succeeds exactly when a mixer is registered and the
    avatar has a clip of that name.  When it fails it changes nothing.
    When it succeeds it fades the current action out over 0.2 s if there
    is one, starts the first clip of that name, makes it the current
    action, and leaves the selector's current clip name as it was. *)
Theorem playAnimation_outcomes (animations : option (list AnimationClip)) (r : Refs)
    (name : string) :
  let r' := (playAnimation animations r name).1 in
  let ok := (playAnimation animations r name).2 in
  (ok = true <->
     (exists m, mixerRef r = Some m)
     /\ exists clips c, animations = Some clips /\ In c clips /\ clipName c = name)
  /\ (ok = false -> r' = r)
  /\ (ok = true ->
      exists m c,
        mixerRef r = Some m /\ clipName c = name
        /\ currentActionRef r' = Some c
        /\ mixerRef r'
           = Some (m ++ match currentActionRef r with
                        | Some old => [fadeOut old 0.2]
                        | None => []
                        end ++ startCalls c)
        /\ currentClipNameRef r' = currentClipNameRef r).
Proof.
  cbv zeta. unfold playAnimation.
  destruct (mixerRef r) as [m |] eqn:Hm.
  - destruct animations as [clips |].
    + destruct (JS.find (hasName name) clips) as [c |] eqn:Hfind.
      * apply find_some in Hfind as Hc. destruct Hc as [Hin Hname].
        apply String.eqb_eq in Hname. cbn [fst snd].
        split; [| split].
        -- split; [| reflexivity]. intros _. split; [eauto |]. exists clips, c. auto.
        -- discriminate.
        -- intros _. exists m, c.
           destruct (currentActionRef r) as [old |]; cbn; rewrite Hm; cbn;
             rewrite <- ?app_assoc; auto.
      * cbn [fst snd]. split; [| split]; try discriminate; auto.
        split; [discriminate |].
        intros (_ & clips' & c & [= <-] & Hin & Hname).
        apply (find_none _ _ Hfind) in Hin. unfold hasName in Hin.
        rewrite Hname, String.eqb_refl in Hin. discriminate.
    + cbn [fst snd]. split; [| split]; try discriminate; auto.
      split; [discriminate |]. intros (_ & clips & c & Hnone & _). discriminate.
  - cbn [fst snd]. split; [| split]; try discriminate; auto.
    split; [discriminate |]. intros ((m & Hnone) & _). discriminate.
Qed.

End PlayFurther.

(** ** Instance Guard: acquire and release on the window *)

Section GuardFurther.

Import AvatarSystem.
Local Open Scope string_scope.

(** Releasing is safe to repeat and only the registered instance can
    free a slot: a second release changes nothing, a release by an
    instance that does not hold the slot changes nothing, and no release
    touches any other property of the window. *)
Theorem release_is_idempotent_and_owner_only (w : gmap string string) (i : Instance) :
  release (release w i) i = release w i
  /\ (w !! globalKey (avatar i) <> Some (componentId i) -> release w i = w)
  /\ (forall k, k <> globalKey (avatar i) -> release w i !! k = w !! k)
  /\ release w i !! globalKey (avatar i) <> Some (componentId i).
Proof.
  unfold release. fold (globalKey (avatar i)).
  destruct (isAt w (globalKey (avatar i)) (componentId i)) eqn:E.
  - apply isAt_true in E. repeat split.
    + unfold isAt. now rewrite lookup_delete_eq.
    + congruence.
    + intros k Hk. now rewrite lookup_delete_ne.
    + rewrite lookup_delete_eq. discriminate.
  - rewrite E. repeat split; auto.
    intros H. apply isAt_true in H. congruence.
Qed.

(** Acquire then release is a round trip on a free slot: the instance
    gets the slot, and after its release the window is exactly what it
    was. *)
Theorem acquire_then_release_restores (w : gmap string string) (i : Instance) :
  w !! globalKey (avatar i) = None ->
  (acquire w i).2 = true
  /\ (acquire w i).1 !! globalKey (avatar i) = Some (componentId i)
  /\ release (acquire w i).1 i = w.
Proof.
  intros Hfree.
  rewrite acquire_free by (unfold truthyAt; now rewrite Hfree). cbn [fst snd].
  split; [reflexivity |]. split; [apply lookup_insert_eq |].
  unfold release. fold (globalKey (avatar i)).
  rewrite (proj2 (isAt_true _ _ _) (lookup_insert_eq _ _ _)).
  rewrite delete_insert_eq. now apply delete_id.
Qed.

Lemma acquire_other_keys (w : gmap string string) (i : Instance) (k : string) :
  k <> globalKey (avatar i) -> (acquire w i).1 !! k = w !! k.
Proof.
  intros Hk. unfold acquire.
  destruct (truthyAt w (globalKey (avatar i)) && _); [reflexivity |].
  destruct (negb (truthyAt w (globalKey (avatar i)))); cbn [fst]; [| reflexivity].
  now rewrite lookup_insert_ne.
Qed.

(** The three ways the guard can go. *)
Lemma acquire_cases (w : gmap string string) (i : Instance) :
  acquire w i = (<[globalKey (avatar i) := componentId i]> w, true)
  \/ (acquire w i = (w, true) /\ w !! globalKey (avatar i) = Some (componentId i))
  \/ acquire w i = (w, false).
Proof.
  unfold acquire.
  destruct (truthyAt w (globalKey (avatar i))) eqn:Ht; cbn [negb andb]; [| now left].
  destruct (isAt w (globalKey (avatar i)) (componentId i)) eqn:Hi; cbn [negb].
  - right; left. split; [reflexivity | now apply isAt_true].
  - right; right. reflexivity.
Qed.

(** The guard is stable under re-rendering and local to its slot: once
    an instance has passed, passing again changes nothing; whatever the
    outcome, no property of the window other than the avatar's slot is
    written; and a blocked call writes nothing at all. *)
Theorem acquire_is_idempotent_and_local (w : gmap string string) (i : Instance) :
  ((acquire w i).2 = true -> acquire (acquire w i).1 i = ((acquire w i).1, true))
  /\ (forall k, k <> globalKey (avatar i) -> (acquire w i).1 !! k = w !! k)
  /\ ((acquire w i).2 = false -> (acquire w i).1 = w).
Proof.
  split; [| split; [intros k Hk; now apply acquire_other_keys |]].
  - intros Hpass. apply acquire_own.
    destruct (acquire_cases w i) as [E | [[E Hown] | E]]; rewrite E in *; cbn [fst snd] in *.
    + apply lookup_insert_eq.
    + exact Hown.
    + discriminate.
  - destruct (acquire_cases w i) as [E | [[E _] | E]]; rewrite E; cbn [fst snd];
      try discriminate; reflexivity.
Qed.

(** Avatars with different names never block each other: what the guard
    answers an instance is the same before and after any acquire or
    release made for an avatar of another name. *)
Theorem guards_of_different_avatars_are_independent (w : gmap string string)
    (i j : Instance) :
  name (avatar i) <> name (avatar j) ->
  (acquire (acquire w i).1 j).2 = (acquire w j).2
  /\ (acquire (release w i) j).2 = (acquire w j).2.
Proof.
  intros Hnames.
  assert (Hkeys : globalKey (avatar j) <> globalKey (avatar i)).
  { intros E%globalKey_inj. congruence. }
  assert (Hlocal : forall w1 w2 : gmap string string,
            w1 !! globalKey (avatar j) = w2 !! globalKey (avatar j) ->
            (acquire w1 j).2 = (acquire w2 j).2).
  { intros w1 w2 E. unfold acquire, truthyAt, isAt. rewrite E.
    destruct (w2 !! globalKey (avatar j)) as [v |]; cbn; [| reflexivity].
    destruct (JS.truthy v), (String.eqb v (componentId j)); reflexivity. }
  split; apply Hlocal.
  - now apply acquire_other_keys.
  - unfold release. fold (globalKey (avatar i)).
    destruct (isAt w (globalKey (avatar i)) (componentId i)); [| reflexivity].
    now rewrite lookup_delete_ne.
Qed.

End GuardFurther.

(** ** Transform Synchronizer *)

Section FrameFurther.

Import Frame.
Local Open Scope R_scope.

Lemma differs_false (a b : R) : differs a b = false <-> a = b.
Proof. unfold differs. destruct (Req_dec_T a b); split; congruence. Qed.

Lemma differs3_false (a b : R * R * R) : differs3 a b = false <-> a = b.
Proof.
  destruct a as [[a1 a2] a3], b as [[b1 b2] b3]. unfold differs3. cbn [fst snd].
  rewrite !orb_false_iff, !differs_false. split.
  - intros [[-> ->] ->]. reflexivity.
  - intros [= -> -> ->]. auto.
Qed.

(** The props are the single source of the transform: after the step the
    group holds exactly the position and rotation of the props, whatever
    it held before (the rotation is written only when it differs, with
    the same outcome); each flag tells whether that part differed; a
    second step with the same props reports no change; and without a
    group nothing happens. *)
Theorem syncTransform_follows_props (g : GroupTransform) (position rotation : R * R * R) :
  let '(g', positionChanged, rotationChanged) :=
    syncTransform (Some g) position rotation in
  g' = Some (mkGroupTransform position rotation)
  /\ (positionChanged = false <-> groupPosition g = position)
  /\ (rotationChanged = false <-> groupRotation g = rotation)
  /\ syncTransform g' position rotation = (g', false, false)
  /\ syncTransform None position rotation = (None, false, false).
Proof.
  unfold syncTransform. cbn [groupPosition groupRotation].
  assert (Hp : differs3 position position = false) by now apply differs3_false.
  assert (Hr : differs3 rotation rotation = false) by now apply differs3_false.
  destruct (differs3 (groupRotation g) rotation) eqn:E; cbn [groupPosition groupRotation].
  - rewrite Hp, Hr. repeat split; try apply differs3_false; try discriminate.
    intros H. apply differs3_false in H. congruence.
  - apply differs3_false in E. rewrite E, Hp, Hr.
    repeat split; try apply differs3_false; auto.
Qed.

End FrameFurther.

(** ** Model Inspector *)

Section InspectorFurther.

Import THREE Inspector.
Local Open Scope R_scope.

Variable setFromObject : SceneObject -> Box3.

(** What a run of the callback over some nodes adds to the counters. *)
Lemma visit_all (objs : list SceneObject) (c : Counters) :
  let c' := fold_left visit objs c in
  List.length (names c') = (List.length (names c) + List.length objs)%nat
  /\ meshCount c' = (meshCount c + List.length (filter isMesh objs))%nat
  /\ skinnedMeshCount c'
     = (skinnedMeshCount c + List.length (filter isSkinnedMesh objs))%nat
  /\ totalTriangleCount c <= totalTriangleCount c'
  /\ (filter isMesh objs = [] ->
      materialCount c' = materialCount c
      /\ totalTriangleCount c' = totalTriangleCount c).
Proof.
  revert c. induction objs as [| o objs IH]; intros c; cbn [fold_left].
  - cbn. repeat split; auto; lia || lra.
  - destruct (IH (visit c o)) as (Hn & Hm & Hs & Ht & Hnone). cbv zeta.
    rewrite Hn, Hm, Hs. cbn [filter List.length].
    assert (Htri : forall n : nat, 0 <= INR n / 3).
    { intros n. pose proof (pos_INR n). lra. }
    unfold visit in *.
    destruct (isMesh o) eqn:Em, (isSkinnedMesh o) eqn:Es;
      cbn [names meshCount materialCount skinnedMeshCount totalTriangleCount
           List.length] in *;
      rewrite ?length_app in *; cbn [List.length] in *;
      (split; [lia |]); (split; [lia |]); (split; [lia |]);
      (split;
       [ try (destruct (geometry o) as [| n | [n |]];
              try pose proof (Htri n); lra); lra
       | try discriminate; exact Hnone ]).
Qed.

(** [analyzeModel] visits every node of the hierarchy exactly once: it
    reports one name per node, counts exactly the nodes flagged as meshes
    and as skinned meshes, never reports a negative triangle count, and
    for a hierarchy without meshes reports no material and no triangle;
    the size and centre it returns are those of the bounding box. *)
Theorem analyzeModel_counts_every_node (root : SceneObject) :
  let a := analyzeModel setFromObject root in
  let nodes := traverse root in
  List.length (names (counters a)) = List.length nodes
  /\ meshCount (counters a) = List.length (filter isMesh nodes)
  /\ skinnedMeshCount (counters a) = List.length (filter isSkinnedMesh nodes)
  /\ (meshCount (counters a) <= List.length nodes)%nat
  /\ 0 <= totalTriangleCount (counters a)
  /\ (meshCount (counters a) = 0%nat ->
      materialCount (counters a) = 0%nat /\ totalTriangleCount (counters a) = 0)
  /\ size a = getSize (boundingBox a)
  /\ center a = getCenter (boundingBox a).
Proof.
  cbv zeta. unfold analyzeModel. cbn [counters size center boundingBox].
  destruct (visit_all (traverse root) (mkCounters [] 0 0 0 0))
    as (Hn & Hm & Hs & Ht & Hnone).
  cbv zeta in Hn, Hm, Hs, Ht, Hnone.
  cbn [names meshCount skinnedMeshCount totalTriangleCount materialCount
       List.length] in Hn, Hm, Hs, Ht, Hnone.
  rewrite Hn, Hm, Hs. cbn [Nat.add].
  split; [reflexivity |]. split; [reflexivity |]. split; [reflexivity |].
  split; [apply filter_length_le |]. split; [exact Ht |].
  split; [intros H0; apply Hnone; now apply length_zero_iff_nil |].
  split; reflexivity.
Qed.

End InspectorFurther.

(** ** Lifecycle *)

Section LifecycleFurther.

Import THREE AvatarSystem.

Variable setFromObject : Object3D -> Box3.


End LifecycleFurther.

(** ** The further properties on sample data *)

Section FurtherInstances.

Import THREE Samples.
Local Open Scope R_scope.

Lemma run_key_scales_motion_witness :
  Movement.z (Movement.velocity (Movement.returnState
     (Movement.updateMovement 0.2 (hookHolding ["KeyW"; "ShiftLeft"]%string) (Some 0.016))))
  = 1.8 * Movement.z (Movement.velocity (Movement.returnState
     (Movement.updateMovement 0.2 (hookHolding ["KeyW"%string]) (Some 0.016)))).
Proof.
  assert (Hd : forall d, Movement.pressed ["KeyW"; "ShiftLeft"]%string d
                         = Movement.pressed ["KeyW"%string] d)
    by (intros []; reflexivity).
  exact (proj1 (proj2 (run_key_scales_motion 0.2
           (hookHolding ["KeyW"; "ShiftLeft"]%string) (hookHolding ["KeyW"%string])
           (Some 0.016) Hd eq_refl eq_refl))).
Defined.

Lemma update_without_direction_witness :
  Movement.notified (Movement.updateMovement 0.2
                       (hookHolding ["ShiftLeft"%string]) (Some 0.016)) = None
  /\ Movement.hook' (Movement.updateMovement 0.2
                       (hookHolding ["ShiftLeft"%string]) (Some 0.016))
     = hookHolding ["ShiftLeft"%string].
Proof.
  destruct (update_without_direction 0.2 (hookHolding ["ShiftLeft"%string])
              (Some 0.016) eq_refl) as (Hh & _ & Hn).
  split; [exact Hn | exact Hh].
Defined.

Lemma diagonal_input_faces_diagonal_witness :
  snd (fst (Movement.rotation (Movement.returnState
     (Movement.updateMovement 0.2 (hookHolding ["KeyW"; "KeyA"]%string) (Some 0.016)))))
  = PI / 4.
Proof.
  assert (Hfs : 1e-6 < Movement.frameSpeed 0.2
                  (Movement.runPressed (Movement.keysPressed
                     (hookHolding ["KeyW"; "KeyA"]%string)))
                  (Movement.deltaTimeOf (Some 0.016))).
  { change (Movement.runPressed _) with false.
    unfold Movement.frameSpeed, Movement.runMultiplier, Movement.deltaTimeOf. lra. }
  exact (proj1 (diagonal_input_faces_diagonal 0.2 (hookHolding ["KeyW"; "KeyA"]%string)
                  (Some 0.016) Hfs) eq_refl).
Defined.

Lemma cancelled_input_faces_last_direction_witness :
  Movement.rotation (Movement.returnState
     (Movement.updateMovement 0.2 (hookHolding ["KeyW"; "KeyS"]%string) (Some 0.016)))
  = (0, PI, 0).
Proof.
  exact (cancelled_input_faces_last_direction 0.2 (hookHolding ["KeyW"; "KeyS"]%string)
           (Some 0.016) Movement.forward eq_refl eq_refl eq_refl).
Defined.

Lemma keyboard_events_keep_key_set_witness :
  NoDup (Movement.keysPressed
           (Movement.handleKeys (hookHolding [])
              [Movement.KeyDown "KeyW"; Movement.KeyDown "KeyW"; Movement.KeyDown "F5";
               Movement.KeyUp "KeyW"; Movement.KeyDown "ShiftLeft"]%string)).
Proof.
  exact (proj1 (keyboard_events_keep_key_set (hookHolding []) _
                  (NoDup_nil string) (incl_nil_l Movement.allKeys))).
Defined.

Lemma key_down_then_up_restores_witness :
  Movement.handleKeyUp (Movement.handleKeyDown (hookHolding ["KeyW"%string]) "KeyA") "KeyA"
  = hookHolding ["KeyW"%string].
Proof.
  assert (Hknown : In "KeyA"%string Movement.allKeys) by (cbn; tauto).
  assert (Hfree : ~ In "KeyA"%string (Movement.keysPressed (hookHolding ["KeyW"%string])))
    by (intros [H | []]; discriminate H).
  exact (proj2 (key_down_then_up_restores (hookHolding ["KeyW"%string]) "KeyA"
                  Hknown Hfree)).
Defined.

Lemma snapshot_counts_run_keys_as_moving_witness :
  Movement.isMoving (Movement.currentState (hookHolding ["ShiftLeft"%string])) = true
  /\ Movement.isMoving (Movement.returnState
        (Movement.updateMovement 0.2 (hookHolding ["ShiftLeft"%string]) (Some 0.016)))
     = false.
Proof.
  assert (Hkeys : Movement.keysPressed (hookHolding ["ShiftLeft"%string]) <> [])
    by discriminate.
  exact (proj2 (snapshot_counts_run_keys_as_moving 0.2 (hookHolding ["ShiftLeft"%string])
                  (Some 0.016)) Hkeys eq_refl).
Defined.


Lemma window_without_setup (key : string) :
  AvatarSystem.isAt ∅ "__currentSetup" key = false.
Proof. unfold AvatarSystem.isAt. now rewrite lookup_empty. Qed.


Lemma setupModel_failure_and_guard_key_witness :
  AvatarSystem.setupModelCall (fun _ => tallBox) (Some 2%nat) ∅
    (AvatarSystem.newOwner ghostFirst (Some [])) 1
  = (Some 3%nat, (∅, AvatarSystem.newOwner ghostFirst (Some []), None)).
Proof.
  destruct (proj1 (proj2 (setupModel_failure_and_guard_key (fun _ => tallBox)
                            (Some 2%nat) ∅
                            (AvatarSystem.newOwner ghostFirst (Some [])) 1))
                  (window_without_setup _))
    as (Hcount & _ & Hfail & _).
  apply injective_projections; cbn [fst snd].
  - exact Hcount.
  - exact (Hfail (or_intror eq_refl)).
Defined.

Lemma setupModel_prepares_stripped_clips_witness :
  exists stripped,
    Animation.strippedClipsRef
      (AvatarSystem.refs (AvatarSystem.setupModel (fun _ => tallBox) ∅
                            (AvatarSystem.newOwner drFirst (Some [])) 1).1.2)
    = Some stripped
    /\ map clipName stripped = ["Idle"; "Walk"]%string.
Proof.
  destruct (proj1 (setupModel_prepares_stripped_clips (fun _ => tallBox) ∅
                     (AvatarSystem.newOwner drFirst (Some [])) 1 [] newGroup
                     (window_without_setup _) eq_refl eq_refl)
                  idleClip [walkClip] eq_refl)
    as (stripped & n & _ & Hs & _ & Hnames & _).
  exists stripped. split; [exact Hs | exact Hnames].
Defined.

Lemma autoplayTimer_starts_preferred_clip_witness :
  Animation.currentClipNameRef (AvatarSystem.refs (AvatarSystem.autoplayTimer
                                                     drAwaitingAutoplay))
  = Some "Idle"%string.
Proof.
  destruct (autoplayTimer_starts_preferred_clip drAwaitingAutoplay []
              [idleClip; walkStripped] idleClip eq_refl eq_refl eq_refl eq_refl)
    as (c & _ & _ & _ & Hname & _).
  exact Hname.
Defined.

Lemma onUpdate_sets_up_once_witness :
  AvatarSystem.hasSetupRunRef
    (AvatarSystem.onUpdate (fun _ => tallBox) ∅
       (AvatarSystem.mkRendered (AvatarSystem.newOwner drFirst None) false) [] 1).2
  = true.
Proof.
  assert (Hmodel : AvatarSystem.model (AvatarSystem.avatar (AvatarSystem.instance
                     (AvatarSystem.owner
                        (AvatarSystem.mkRendered (AvatarSystem.newOwner drFirst None) false))))
                   <> None) by discriminate.
  exact (proj1 (proj2 (onUpdate_sets_up_once (fun _ => tallBox) ∅
                         (AvatarSystem.mkRendered (AvatarSystem.newOwner drFirst None) false)
                         [] 1 eq_refl (window_without_setup _)) Hmodel)).
Defined.

Lemma selector_resolves_to_existing_clip_witness :
  exists c, In c [idleClip; walkStripped] /\ clipName c = "Walk"%string.
Proof.
  exact (proj1 (proj2 (selector_resolves_to_existing_clip [idleClip; walkStripped]
                         true false)) "Walk"%string eq_refl).
Defined.

Lemma selector_prefers_run_then_walk_witness :
  Animation.want [idleClip; walkStripped] true false = Some "Walk"%string.
Proof.
  exact (proj2 (selector_prefers_run_then_walk [idleClip; walkStripped] walkStripped)
               eq_refl eq_refl).
Defined.

Lemma selector_rests_on_idle_or_first_witness :
  Animation.want [idleClip; walkStripped] false false = Some "Idle"%string.
Proof.
  exact (proj1 (proj2 (selector_rests_on_idle_or_first [idleClip; walkStripped]))
               idleClip eq_refl eq_refl).
Defined.

Lemma playStrippedByName_falls_back_on_first_witness :
  Animation.currentClipNameRef
    (Animation.playStrippedByName [idleClip; walkStripped] refsAfterSetup "Dance")
  = Some "Idle"%string.
Proof.
  assert (Hunknown : forall c, In c [idleClip; walkStripped] -> clipName c <> "Dance"%string).
  { intros c [<- | [<- | []]]; discriminate. }
  rewrite (playStrippedByName_falls_back_on_first [idleClip; walkStripped] refsAfterSetup
             "Dance" Hunknown).
  reflexivity.
Defined.

Lemma playAnimation_outcomes_witness :
  (Animation.playAnimation (Some [idleClip; walkStripped]) refsPlayingIdle "Dance").1
  = refsPlayingIdle.
Proof.
  exact (proj1 (proj2 (playAnimation_outcomes (Some [idleClip; walkStripped])
                         refsPlayingIdle "Dance")) eq_refl).
Defined.

Lemma release_is_idempotent_and_owner_only_witness :
  AvatarSystem.release ∅ drFirst = ∅.
Proof.
  apply (proj1 (proj2 (release_is_idempotent_and_owner_only ∅ drFirst))).
  rewrite lookup_empty. discriminate.
Defined.

Lemma acquire_then_release_restores_witness :
  AvatarSystem.release (AvatarSystem.acquire ∅ drFirst).1 drFirst = ∅.
Proof.
  exact (proj2 (proj2 (acquire_then_release_restores ∅ drFirst (lookup_empty _)))).
Defined.

Lemma acquire_is_idempotent_and_local_witness :
  (AvatarSystem.acquire (AvatarSystem.acquire ∅ drFirst).1 drSecond).1
    !! AvatarSystem.globalKey kaiju
  = (AvatarSystem.acquire ∅ drFirst).1 !! AvatarSystem.globalKey kaiju.
Proof.
  apply (proj1 (proj2 (acquire_is_idempotent_and_local
                         (AvatarSystem.acquire ∅ drFirst).1 drSecond))).
  discriminate.
Defined.

Lemma guards_of_different_avatars_are_independent_witness :
  (AvatarSystem.acquire (AvatarSystem.acquire ∅ drFirst).1 kaijuFirst).2
  = (AvatarSystem.acquire ∅ kaijuFirst).2.
Proof.
  assert (Hnames : AvatarSystem.name (AvatarSystem.avatar drFirst)
                   <> AvatarSystem.name (AvatarSystem.avatar kaijuFirst)) by discriminate.
  exact (proj1 (guards_of_different_avatars_are_independent ∅ drFirst kaijuFirst Hnames)).
Defined.

Lemma analyzeModel_counts_every_node_witness :
  List.length (Inspector.names (Inspector.counters
                 (Inspector.analyzeModel (fun _ => tallBox) armature))) = 3%nat
  /\ Inspector.meshCount (Inspector.counters
        (Inspector.analyzeModel (fun _ => tallBox) armature)) = 1%nat.
Proof.
  destruct (analyzeModel_counts_every_node (fun _ => tallBox) armature)
    as (Hn & Hm & _).
  split; [exact Hn | exact Hm].
Defined.


End FurtherInstances.
